(** * dfvfs: partition enumeration, entry metadata and layer openers

    A shallow embedding of
      - [dfvfs/vfs/tsk_partition_file_entry.py]
        ([TSKPartitionDirectory], [TSKPartitionFileEntry]),
      - [dfvfs/vfs/tar_file_system.py] ([TARFileSystem]),
      - [dfvfs/file_io/vhdi_file_io.py] ([VhdiFile]),
    together with the properties the specification states about them.

    Python integers are unbounded and are modelled by [Z]; unicode strings by
    [string]; [None]-able attributes by [option]; exceptions by the [Raise]
    constructor of [result]; object state and calls into collaborators by
    explicit state passing over a world that records a trace of events. *)

From Stdlib Require Import ZArith String Ascii List Bool Lia.
From Stdlib Require Import Decimal DecimalString.
From Stdlib Require Import DecimalZ.
From Stdlib Require Strings.Byte.
Import ListNotations.

Local Open Scope string_scope.
Local Open Scope Z_scope.

(** ** Python run-time model *)

(** The exception classes the embedded code raises or catches. *)
Inductive exn : Type :=
| PathSpecError
| BackEndError
| KeyError
| AttributeError
| TypeError
| IOError.

Inductive result (A : Type) : Type :=
| Ok (a : A)
| Raise (e : exn).
Arguments Ok {A} a.
Arguments Raise {A} e.

Definition is_raise {A : Type} (r : result A) : bool :=
  match r with Ok _ => false | Raise _ => true end.

(** Python truthiness of an integer: [if n:] holds unless [n] is zero. *)
Definition truthy (n : Z) : bool := negb (n =? 0).

(** File-like objects are identified by their object identity. *)
Definition handle : Type := nat.

(** ['{0:d}'.format(n)]: signed decimal, no padding. *)
Definition format_d (n : Z) : string := NilZero.string_of_int (Z.to_int n).

(** ** Path specifications *)

Inductive type_indicator : Type :=
| TYPE_INDICATOR_OS
| TYPE_INDICATOR_TAR
| TYPE_INDICATOR_TSK_PARTITION
| TYPE_INDICATOR_VHDI
| TYPE_INDICATOR_VMDK.

(** A path specification: the attributes the embedded code reads with
    [getattr(path_spec, name, None)], and the parent chain. *)
#[warnings="-register-all"]
Inductive PathSpec : Type :=
  Build_PathSpec
    (type_indicator_of : type_indicator)
    (location_of : option string)
    (part_index_of : option Z)
    (start_offset_of : option Z)
    (parent_of : option PathSpec).

Definition kind (ps : PathSpec) : type_indicator :=
  match ps with Build_PathSpec k _ _ _ _ => k end.
Definition location (ps : PathSpec) : option string :=
  match ps with Build_PathSpec _ l _ _ _ => l end.
Definition part_index (ps : PathSpec) : option Z :=
  match ps with Build_PathSpec _ _ i _ _ => i end.
Definition start_offset (ps : PathSpec) : option Z :=
  match ps with Build_PathSpec _ _ _ o _ => o end.
Definition parent (ps : PathSpec) : option PathSpec :=
  match ps with Build_PathSpec _ _ _ _ p => p end.

(** Modelled from the spec: [PathSpec.HasParent] lives in [dfvfs/path], which
    is not part of the sources at hand; [has_parent()] tells whether the
    descriptor is nested inside a parent descriptor. *)
Definition HasParent (ps : PathSpec) : bool :=
  match parent ps with Some _ => true | None => false end.

(** Number of ancestors of a descriptor. *)
Fixpoint depth (ps : PathSpec) : nat :=
  match ps with
  | Build_PathSpec _ _ _ _ None => O
  | Build_PathSpec _ _ _ _ (Some p) => S (depth p)
  end.

(** Modelled from the spec: the constructor of [TSKPartitionPathSpec] lives in
    [dfvfs/path/tsk_partition_path_spec.py], which is not part of the sources
    at hand. Section 4.1: a kind that requires a parent "fails with an
    invalid-descriptor error if [...] constructed without one"; otherwise the
    keyword arguments become the attributes of the new descriptor. *)
Definition TSKPartitionPathSpec
    (loc : option string) (idx : option Z) (off : option Z)
    (par : option PathSpec) : result PathSpec :=
  match par with
  | None => Raise PathSpecError
  | Some _ => Ok (Build_PathSpec TYPE_INDICATOR_TSK_PARTITION loc idx off par)
  end.

(** ** The native volume system *)

(** Modelled from the spec: [dfvfs/lib/tsk_partition.py] (the helpers
    [TSKVsPartIsAllocated], [TSKVsPartGetStartSector],
    [TSKVsPartGetNumberOfSectors], [TSKVolumeGetBytesPerSector]) is not part
    of the sources at hand. A native record is what those helpers report
    about it: whether it is allocated, its start sector and its number of
    sectors, each of the last two possibly missing. *)
Module tsk_partition.

Record tsk_vs_part : Type := {
  vs_allocated : bool;
  vs_start : option Z;
  vs_len : option Z
}.

Record tsk_volume : Type := {
  vol_bytes_per_sector : Z;
  vol_parts : list tsk_vs_part   (* the records, in on-disk order *)
}.

Definition TSKVsPartIsAllocated (p : tsk_vs_part) : bool := vs_allocated p.
Definition TSKVsPartGetStartSector (p : tsk_vs_part) : option Z := vs_start p.
Definition TSKVsPartGetNumberOfSectors (p : tsk_vs_part) : option Z := vs_len p.
Definition TSKVolumeGetBytesPerSector (v : tsk_volume) : Z :=
  vol_bytes_per_sector v.

End tsk_partition.

(** ** [dfvfs/vfs/tsk_partition_file_entry.py] *)

Module tsk_partition_file_entry.
Import tsk_partition.

(** *** The partition file system, its world and its events *)

Inductive event : Type :=
| EvVolumeIter                 (* iter(tsk_volume): a walk starts at record 0 *)
| EvVolumeFetch (i : nat)      (* the walk produced record number i *)
| EvNewPartitionFile (h : handle)    (* TSKPartitionFile(...) constructed *)
| EvOpenPartitionFile (h : handle).  (* its open() called *)

(** The attributes of the partition file system the entries read:
    [LOCATION_ROOT] and the volume behind [GetTSKVolume()]. *)
Record TSKPartitionFileSystem : Type := {
  LOCATION_ROOT : string;
  _tsk_volume : tsk_volume
}.

(** The file system is one object shared by every directory and entry made
    from it, so it lives in the world, next to the trace of events. *)
Record world : Type := {
  file_system : TSKPartitionFileSystem;
  trace : list event;
  next_handle : handle           (* identity of the next object created *)
}.

Definition log (evs : list event) (w : world) : world :=
  {| file_system := file_system w;
     trace := trace w ++ evs;
     next_handle := next_handle w |}.

Definition GetTSKVolume (w : world) : tsk_volume := _tsk_volume (file_system w).

(** [list(tsk_volume)]: one walk from the first record to the last, every
    record fetched before the list is returned. *)
Definition walk_events (n : nat) : list event :=
  EvVolumeIter :: map EvVolumeFetch (seq 0 n).

Definition list_volume (w : world) : list tsk_vs_part * world :=
  let parts := vol_parts (GetTSKVolume w) in
  (parts, log (walk_events (length parts)) w).

(** *** [TSKPartitionDirectory._EntriesGenerator] *)

Record TSKPartitionDirectory : Type := { dir_path_spec : PathSpec }.

(** Lines 44-52: only the virtual root has directory entries. *)
Definition is_enumerable (fs : TSKPartitionFileSystem) (ps : PathSpec) : bool :=
  match part_index ps, start_offset ps with
  | None, None =>
      match location ps with
      | None => false
      | Some l => String.eqb l (LOCATION_ROOT fs)
      end
  | _, _ => false
  end.

(** Lines 63-79: the body of the loop, for one record. Returns the outcome of
    building the child descriptor and the two counters after the record. *)
Definition entry_of_part
    (par : option PathSpec) (bytes_per_sector : Z)
    (part_idx partition_idx : Z) (p : tsk_vs_part)
    : result PathSpec * Z * Z :=
  let partition_idx' :=
    if TSKVsPartIsAllocated p then partition_idx + 1 else partition_idx in
  let kw_location :=
    if TSKVsPartIsAllocated p
    then Some ("/p" ++ format_d partition_idx')
    else None in
  let kw_part_index := Some part_idx in
  let kw_start_offset :=
    match TSKVsPartGetStartSector p with
    | Some start_sector => Some (start_sector * bytes_per_sector)
    | None => None
    end in
  (TSKPartitionPathSpec kw_location kw_part_index kw_start_offset par,
   part_idx + 1, partition_idx').

(** The generator as a machine: not started, inside the loop over the list
    made at line 62, or finished. *)
Inductive gen_state : Type :=
| GenStart
| GenLoop (pending : list tsk_vs_part) (bytes_per_sector : Z)
          (part_idx partition_idx : Z)
| GenDone.

Inductive gen_out : Type :=
| Yield (ps : PathSpec)
| StopIteration
| GenRaise (e : exn).

Definition loop_next
    (par : option PathSpec) (pending : list tsk_vs_part)
    (bytes_per_sector part_idx partition_idx : Z) : gen_out * gen_state :=
  match pending with
  | [] => (StopIteration, GenDone)
  | p :: rest =>
      match entry_of_part par bytes_per_sector part_idx partition_idx p with
      | (Ok ps, part_idx', partition_idx') =>
          (Yield ps, GenLoop rest bytes_per_sector part_idx' partition_idx')
      | (Raise e, _, _) => (GenRaise e, GenDone)
      end
  end.

(** One [next()] on the generator. *)
Definition gen_next (d : TSKPartitionDirectory) (s : gen_state) (w : world)
    : gen_out * gen_state * world :=
  match s with
  | GenStart =>
      if is_enumerable (file_system w) (dir_path_spec d) then
        let bytes_per_sector := TSKVolumeGetBytesPerSector (GetTSKVolume w) in
        let '(parts, w') := list_volume w in
        (loop_next (parent (dir_path_spec d)) parts bytes_per_sector 0 0, w')
      else (StopIteration, GenDone, w)
  | GenLoop pending bytes_per_sector part_idx partition_idx =>
      (loop_next (parent (dir_path_spec d)) pending bytes_per_sector
                 part_idx partition_idx, w)
  | GenDone => (StopIteration, GenDone, w)
  end.

(** The generator run to exhaustion: what it yields, and the exception that
    ended it, if any. *)
Fixpoint entries_loop
    (par : option PathSpec) (bytes_per_sector part_idx partition_idx : Z)
    (pending : list tsk_vs_part) : list PathSpec * option exn :=
  match pending with
  | [] => ([], None)
  | p :: rest =>
      match entry_of_part par bytes_per_sector part_idx partition_idx p with
      | (Ok ps, part_idx', partition_idx') =>
          let '(yielded, err) :=
            entries_loop par bytes_per_sector part_idx' partition_idx' rest in
          (ps :: yielded, err)
      | (Raise e, _, _) => ([], Some e)
      end
  end.

Definition _EntriesGenerator (d : TSKPartitionDirectory) (w : world)
    : list PathSpec * option exn * world :=
  if is_enumerable (file_system w) (dir_path_spec d) then
    let bytes_per_sector := TSKVolumeGetBytesPerSector (GetTSKVolume w) in
    let '(parts, w') := list_volume w in
    (entries_loop (parent (dir_path_spec d)) bytes_per_sector 0 0 parts, w')
  else ([], None, w).

Definition yielded (d : TSKPartitionDirectory) (w : world) : list PathSpec :=
  fst (fst (_EntriesGenerator d w)).
Definition ended_by (d : TSKPartitionDirectory) (w : world) : option exn :=
  snd (fst (_EntriesGenerator d w)).

(** [next()] called until the generator stops, at most [fuel] times. *)
Fixpoint drain (fuel : nat) (d : TSKPartitionDirectory) (s : gen_state)
    (w : world) : option (list PathSpec * option exn * world) :=
  match fuel with
  | O => None
  | S fuel' =>
      match gen_next d s w with
      | (Yield ps, s', w') =>
          match drain fuel' d s' w' with
          | Some (yielded, err, w'') => Some (ps :: yielded, err, w'')
          | None => None
          end
      | (StopIteration, _, w') => Some ([], None, w')
      | (GenRaise e, _, w') => Some ([], Some e, w')
      end
  end.

(** Number of allocated records in a list of records. *)
Definition allocated_count (l : list tsk_vs_part) : Z :=
  Z.of_nat (length (filter TSKVsPartIsAllocated l)).

(** *** [TSKPartitionFileEntry] *)

Inductive stat_type : Type := TYPE_FILE | TYPE_DIRECTORY.

(** Modelled from the spec: [dfvfs/vfs/vfs_stat.py] is not part of the
    sources at hand. The stat summary of section 3 holds a size, a type and an
    allocation status; a fresh summary has no size and no type yet, and is
    taken as allocated until told otherwise. *)
Record VFSStat : Type := {
  size : option Z;
  type : option stat_type;
  is_allocated : bool
}.

Definition VFSStat_new : VFSStat :=
  {| size := None; type := None; is_allocated := true |}.

(** The attributes of an entry object ([__init__], lines 87-103, and the
    [_stat_object] and [_directory] slots of the base class). *)
Record TSKPartitionFileEntry : Type := {
  path_spec : PathSpec;
  _is_root : bool;
  _is_virtual : bool;
  _file_object : option handle;
  _name : option string;
  _tsk_vs_part : option tsk_vs_part;
  _stat_object : option VFSStat;
  _directory : option TSKPartitionDirectory
}.

(** [TSKPartitionFileEntry(file_system, path_spec, is_root, is_virtual)]. *)
Definition new_entry (ps : PathSpec) (is_root is_virtual : bool)
    : TSKPartitionFileEntry :=
  {| path_spec := ps; _is_root := is_root; _is_virtual := is_virtual;
     _file_object := None; _name := None; _tsk_vs_part := None;
     _stat_object := None; _directory := None |}.

Definition set_tsk_vs_part (e : TSKPartitionFileEntry)
    (v : option tsk_vs_part) : TSKPartitionFileEntry :=
  {| path_spec := path_spec e; _is_root := _is_root e;
     _is_virtual := _is_virtual e; _file_object := _file_object e;
     _name := _name e; _tsk_vs_part := v;
     _stat_object := _stat_object e; _directory := _directory e |}.

Definition set_file_object (e : TSKPartitionFileEntry)
    (v : option handle) : TSKPartitionFileEntry :=
  {| path_spec := path_spec e; _is_root := _is_root e;
     _is_virtual := _is_virtual e; _file_object := v;
     _name := _name e; _tsk_vs_part := _tsk_vs_part e;
     _stat_object := _stat_object e; _directory := _directory e |}.

Definition set_stat_object (e : TSKPartitionFileEntry)
    (v : option VFSStat) : TSKPartitionFileEntry :=
  {| path_spec := path_spec e; _is_root := _is_root e;
     _is_virtual := _is_virtual e; _file_object := _file_object e;
     _name := _name e; _tsk_vs_part := _tsk_vs_part e;
     _stat_object := v; _directory := _directory e |}.

Definition set_directory (e : TSKPartitionFileEntry)
    (v : option TSKPartitionDirectory) : TSKPartitionFileEntry :=
  {| path_spec := path_spec e; _is_root := _is_root e;
     _is_virtual := _is_virtual e; _file_object := _file_object e;
     _name := _name e; _tsk_vs_part := _tsk_vs_part e;
     _stat_object := _stat_object e; _directory := v |}.

Section Entry.

(** [tsk_partition.GetTSKVsPartByPathSpec(tsk_volume, path_spec)], which
    returns the native record a descriptor denotes (or [None]) and its index,
    is defined outside the sources at hand: the entry code is embedded over
    any such lookup. *)
Variable GetTSKVsPartByPathSpec :
  tsk_volume -> PathSpec -> option tsk_vs_part * option Z.

(** [TSKPartitionFile.open()] belongs to [dfvfs/file_io], outside the sources
    at hand: the exception it raises, if any, for the object built from a
    volume and a record. *)
Variable TSKPartitionFile_open :
  tsk_volume -> option tsk_vs_part -> option exn.

(** Lines 202-212. *)
Definition GetTSKVsPart (e : TSKPartitionFileEntry) (w : world)
    : option tsk_vs_part :=
  fst (GetTSKVsPartByPathSpec (GetTSKVolume w) (path_spec e)).

(** Lines 125-126 and 189-190: the record is looked up once and kept. *)
Definition cache_tsk_vs_part (e : TSKPartitionFileEntry) (w : world)
    : TSKPartitionFileEntry :=
  match _tsk_vs_part e with
  | None => set_tsk_vs_part e (GetTSKVsPart e w)
  | Some _ => e
  end.

(** Lines 115-161. Returns the stat object or the exception raised, and the
    entry with its [_tsk_vs_part] slot filled. *)
Definition _GetStat (e : TSKPartitionFileEntry) (w : world)
    : result VFSStat * TSKPartitionFileEntry :=
  let e1 := cache_tsk_vs_part e w in
  let stat_object := VFSStat_new in
  match _is_virtual e1, _tsk_vs_part e1 with
  | false, None => (Raise BackEndError, e1)
  | is_virtual, vs_part =>
      let bytes_per_sector := TSKVolumeGetBytesPerSector (GetTSKVolume w) in
      let size1 :=
        match vs_part with
        | Some p =>
            match TSKVsPartGetNumberOfSectors p with
            | Some number_of_sectors =>
                if truthy number_of_sectors
                then Some (number_of_sectors * bytes_per_sector)
                else size stat_object
            | None => size stat_object
            end
        | None => size stat_object
        end in
      let type1 :=
        if is_virtual then Some TYPE_DIRECTORY else Some TYPE_FILE in
      let is_allocated1 :=
        match is_virtual, vs_part with
        | false, Some p => TSKVsPartIsAllocated p
        | _, _ => is_allocated stat_object
        end in
      (Ok {| size := size1; type := type1; is_allocated := is_allocated1 |},
       e1)
  end.

(** Lines 105-113. *)
Definition _GetDirectory (e : TSKPartitionFileEntry) (w : world)
    : result (option TSKPartitionDirectory) * TSKPartitionFileEntry :=
  let '(r, e1) :=
    match _stat_object e with
    | Some st => (Ok st, e)
    | None =>
        match _GetStat e w with
        | (Ok st, e') => (Ok st, set_stat_object e' (Some st))
        | (Raise x, e') => (Raise x, e')
        end
    end in
  match r with
  | Raise x => (Raise x, e1)
  | Ok st =>
      match type st with
      | Some TYPE_DIRECTORY => (Ok (Some {| dir_path_spec := path_spec e1 |}), e1)
      | _ => (Ok None, e1)
      end
  end.

(** Lines 176-184, run to exhaustion: the child entries yielded, the
    exception that ended the walk if any, and the entry and world after. *)
Definition sub_file_entries (e : TSKPartitionFileEntry) (w : world)
    : list TSKPartitionFileEntry * option exn * TSKPartitionFileEntry * world :=
  let '(r, e1) :=
    match _directory e with
    | Some d => (Ok (Some d), e)
    | None =>
        match _GetDirectory e w with
        | (Ok d, e') => (Ok d, set_directory e' d)
        | (Raise x, e') => (Raise x, e')
        end
    end in
  match r with
  | Raise x => ([], Some x, e1, w)
  | Ok None => ([], None, e1, w)
  | Ok (Some d) =>
      let '(specs, err, w') := _EntriesGenerator d w in
      (map (fun ps => new_entry ps false false) specs, err, e1, w')
  end.

(** Lines 186-196. The new object is kept on the entry before its [open()]
    is called. *)
Definition GetFileObject (e : TSKPartitionFileEntry) (w : world)
    : result handle * TSKPartitionFileEntry * world :=
  match _file_object e with
  | Some h => (Ok h, e, w)
  | None =>
      let e1 := cache_tsk_vs_part e w in
      let tsk_volume := GetTSKVolume w in
      let h := next_handle w in
      let e2 := set_file_object e1 (Some h) in
      let w1 :=
        {| file_system := file_system w;
           trace := trace w ++ [EvNewPartitionFile h; EvOpenPartitionFile h];
           next_handle := S h |} in
      match TSKPartitionFile_open tsk_volume (_tsk_vs_part e1) with
      | Some x => (Raise x, e2, w1)
      | None => (Ok h, e2, w1)
      end
  end.

End Entry.

(** How many file objects a trace shows being constructed. *)
Definition constructions (tr : list event) : nat :=
  length (filter (fun ev => match ev with EvNewPartitionFile _ => true
                                        | _ => false end) tr).

(** How many native records a trace shows being fetched. *)
Definition fetches (tr : list event) : nat :=
  length (filter (fun ev => match ev with EvVolumeFetch _ => true
                                        | _ => false end) tr).

(** How many walks of the native volume a trace shows being started. *)
Definition walks (tr : list event) : nat :=
  length (filter (fun ev => match ev with EvVolumeIter => true
                                        | _ => false end) tr).

(** *** [TSKPartitionFileEntry.name] and [GetParentFileEntry] *)

Definition set_name (e : TSKPartitionFileEntry)
    (v : option string) : TSKPartitionFileEntry :=
  {| path_spec := path_spec e; _is_root := _is_root e;
     _is_virtual := _is_virtual e; _file_object := _file_object e;
     _name := v; _tsk_vs_part := _tsk_vs_part e;
     _stat_object := _stat_object e; _directory := _directory e |}.

Section EntryName.

(** [BasenamePath] is a method of the file system base class, defined
    outside the sources at hand: the entry code is embedded over any such
    function. *)
Variable BasenamePath : string -> string.

(** Lines 163-174. Returns the name and the entry with its [_name] slot
    filled. *)
Definition name (e : TSKPartitionFileEntry) : string * TSKPartitionFileEntry :=
  match _name e with
  | Some n => (n, e)
  | None =>
      let n :=
        match location (path_spec e) with
        | Some l => BasenamePath l
        | None => EmptyString
        end in
      (n, set_name e (Some n))
  end.

End EntryName.

(** Lines 198-200. *)
Definition GetParentFileEntry (e : TSKPartitionFileEntry)
    : option TSKPartitionFileEntry := None.

End tsk_partition_file_entry.

(** ** Layer openers: collaborators and their events *)

(** Python's [location[1:]]. *)
Definition drop_first (s : string) : string :=
  match s with
  | EmptyString => EmptyString
  | String _ rest => rest
  end.

(** Python's [s.startswith(p)]. *)
Definition startswith (s p : string) : bool := String.prefix p s.

Module tarfile.

(** The standard [tarfile] module is outside the repository; it is modelled
    by its documented behaviour. An archive is the list of its members in
    archive order; [getmember] returns the last member of that name and
    raises [KeyError] when there is none; [getnames] lists the names. *)
Record TarInfo : Type := { name : string; member_size : Z }.

Definition TarFile : Type := list TarInfo.

Definition getmember (t : TarFile) (n : string) : result TarInfo :=
  match find (fun m => String.eqb n (name m)) (List.rev t) with
  | Some m => Ok m
  | None => Raise KeyError
  end.

Definition getnames (t : TarFile) : list string := map name t.

End tarfile.

Inductive io_event : Type :=
| EvOpenFileObject (ps : PathSpec) (r : result handle)
    (* Resolver.OpenFileObject(ps) was called, with this outcome *)
| EvTarfileOpen (h : handle) (ok : bool)
    (* tarfile.open(fileobj=h) was called; whether it returned *)
| EvVhdiOpenFileObject (h : handle) (ok : bool)
    (* pyvhdi.file().open_file_object(h) was called; whether it returned *)
| EvClose (h : handle).
    (* h.close() was called *)

(** What the collaborators answer. Each may depend on everything that
    happened before, so each takes the trace so far. [Resolver.OpenFileObject]
    lives in [dfvfs/resolver], outside the sources at hand; [tarfile] and
    [pyvhdi] are outside the repository. *)
Record collaborators : Type := {
  Resolver_OpenFileObject : PathSpec -> list io_event -> result handle;
  tarfile_open : handle -> list io_event -> result tarfile.TarFile;
  pyvhdi_open_file_object : handle -> list io_event -> option exn;
  file_object_close : handle -> list io_event -> option exn
}.

Definition io_event_eqb_acquire (h : handle) (ev : io_event) : bool :=
  match ev with
  | EvOpenFileObject _ (Ok h') => Nat.eqb h h'
  | _ => false
  end.

Definition io_event_eqb_close (h : handle) (ev : io_event) : bool :=
  match ev with
  | EvClose h' => Nat.eqb h h'
  | _ => false
  end.

(** References to [h] a trace shows acquired from the resolver and not yet
    given back by a [close()]. *)
Definition held (tr : list io_event) (h : handle) : Z :=
  Z.of_nat (length (filter (io_event_eqb_acquire h) tr))
  - Z.of_nat (length (filter (io_event_eqb_close h) tr)).

(** Calls a trace shows to a decoder factory or to the resolver. *)
Definition is_io (ev : io_event) : bool :=
  match ev with
  | EvOpenFileObject _ _ | EvTarfileOpen _ _ | EvVhdiOpenFileObject _ _ => true
  | EvClose _ => false
  end.

(** ** [dfvfs/vfs/tar_file_system.py] *)

Module tar_file_system.
Import tarfile.

Definition LOCATION_ROOT : string := "/".

Record TARFileSystem : Type := {
  _file_object : option handle;
  _tar_file : option TarFile;
  encoding : string
}.

(** [__init__], lines 26-36. *)
Definition new_TARFileSystem (enc : string) : TARFileSystem :=
  {| _file_object := None; _tar_file := None; encoding := enc |}.

(** Modelled from the spec: [TARFileEntry] lives in
    [dfvfs/vfs/tar_file_entry.py], which is not part of the sources at hand.
    A file entry (section 3) is a node for one descriptor with a
    possibly-virtual flag; the constructor keeps its keyword arguments, which
    default to [False] and [None]. *)
Record TARFileEntry : Type := {
  entry_path_spec : PathSpec;
  is_root : bool;
  is_virtual : bool;
  tar_info : option TarInfo
}.

(** Lines 50-79. Returns the outcome, the file system object after the call
    and the trace extended by the calls made. *)
Definition _Open (c : collaborators) (self : TARFileSystem)
    (path_spec : PathSpec) (tr : list io_event)
    : result unit * TARFileSystem * list io_event :=
  if negb (HasParent path_spec) then (Raise PathSpecError, self, tr)
  else
    match parent path_spec with
    | None => (Raise AttributeError, self, tr)
    | Some par =>
        let r := Resolver_OpenFileObject c par tr in
        let tr1 := (tr ++ [EvOpenFileObject par r])%list in
        match r with
        | Raise e => (Raise e, self, tr1)
        | Ok file_object =>
            match tarfile_open c file_object tr1 with
            | Raise e =>
                let tr2 := (tr1 ++ [EvTarfileOpen file_object false])%list in
                let tr3 := (tr2 ++ [EvClose file_object])%list in
                match file_object_close c file_object tr2 with
                | Some e' => (Raise e', self, tr3)
                | None => (Raise e, self, tr3)
                end
            | Ok tar_file =>
                (Ok tt,
                 {| _file_object := Some file_object;
                    _tar_file := Some tar_file;
                    encoding := encoding self |},
                 (tr1 ++ [EvTarfileOpen file_object true])%list)
            end
        end
    end.

(** Lines 81-112. *)
Definition FileEntryExistsByPathSpec (self : TARFileSystem)
    (path_spec : PathSpec) : result bool :=
  match location path_spec with
  | None => Ok false
  | Some loc =>
      if negb (startswith loc LOCATION_ROOT) then Ok false
      else if Nat.eqb (String.length loc) 1 then Ok true
      else
        match _tar_file self with
        | None => Raise AttributeError
        | Some tar_file =>
            match getmember tar_file (drop_first loc) with
            | Ok _ => Ok true
            | Raise KeyError =>
                Ok (existsb (fun n => startswith n (drop_first loc))
                            (getnames tar_file))
            | Raise e => Raise e
            end
        end
  end.

(** Lines 114-140. *)
Definition GetFileEntryByPathSpec (self : TARFileSystem)
    (path_spec : PathSpec) : result (option TARFileEntry) :=
  match FileEntryExistsByPathSpec self path_spec with
  | Raise e => Raise e
  | Ok false => Ok None
  | Ok true =>
      match location path_spec with
      | None => Raise TypeError
      | Some loc =>
          if Nat.eqb (String.length loc) 1 then
            Ok (Some {| entry_path_spec := path_spec; is_root := true;
                        is_virtual := true; tar_info := None |})
          else
            match _tar_file self with
            | None => Raise AttributeError
            | Some tar_file =>
                match getmember tar_file (drop_first loc) with
                | Ok ti =>
                    Ok (Some {| entry_path_spec := path_spec;
                                is_root := false; is_virtual := false;
                                tar_info := Some ti |})
                | Raise KeyError =>
                    Ok (Some {| entry_path_spec := path_spec;
                                is_root := false; is_virtual := true;
                                tar_info := None |})
                | Raise e => Raise e
                end
            end
      end
  end.

(** Lines 38-48. [close_tar_file] is what [TarFile.close()] raises, if
    anything; an archive opened on a file object given to it does not close
    that object. *)
Definition _Close (close_tar_file : TarFile -> list io_event -> option exn)
    (c : collaborators) (self : TARFileSystem) (tr : list io_event)
    : result unit * TARFileSystem * list io_event :=
  match _tar_file self with
  | None => (Raise AttributeError, self, tr)
  | Some tar_file =>
      match close_tar_file tar_file tr with
      | Some e => (Raise e, self, tr)
      | None =>
          let self1 :=
            {| _file_object := _file_object self; _tar_file := None;
               encoding := encoding self |} in
          match _file_object self1 with
          | None => (Raise AttributeError, self1, tr)
          | Some file_object =>
              let tr1 := (tr ++ [EvClose file_object])%list in
              match file_object_close c file_object tr with
              | Some e => (Raise e, self1, tr1)
              | None =>
                  (Ok tt,
                   {| _file_object := None; _tar_file := None;
                      encoding := encoding self |},
                   tr1)
              end
          end
      end
  end.



(** Lines 153-159. *)
Definition GetTARFile (self : TARFileSystem) : option TarFile :=
  _tar_file self.

End tar_file_system.

(** ** [dfvfs/file_io/vhdi_file_io.py] *)

Module vhdi_file_io.

(** A [pyvhdi.file] object opened on a file-like object. *)
Record vhdi_file : Type := { vhdi_file_object : handle }.

(** Lines 34-57. *)
Definition _OpenFileObject (c : collaborators) (path_spec : PathSpec)
    (tr : list io_event) : result vhdi_file * list io_event :=
  if negb (HasParent path_spec) then (Raise PathSpecError, tr)
  else
    match parent path_spec with
    | None => (Raise AttributeError, tr)
    | Some par =>
        let r := Resolver_OpenFileObject c par tr in
        let tr1 := (tr ++ [EvOpenFileObject par r])%list in
        match r with
        | Raise e => (Raise e, tr1)
        | Ok file_object =>
            match pyvhdi_open_file_object c file_object tr1 with
            | Some e => (Raise e,
                         (tr1 ++ [EvVhdiOpenFileObject file_object false])%list)
            | None =>
                (Ok {| vhdi_file_object := file_object |},
                 (tr1 ++ [EvVhdiOpenFileObject file_object true])%list)
            end
        end
    end.

End vhdi_file_io.

(** ** [dfvfs/helpers/data_slice.py] *)

Module data_slice.
Import Strings.Byte.

Definition bytes : Type := list byte.

(** [os.SEEK_SET] and [os.SEEK_END]. *)
Inductive whence : Type := SEEK_SET | SEEK_END.

(** The methods of a file-like object the data slice calls, over the state
    [S] of that object. *)
Record FileIO (S : Type) : Type := {
  seek : Z -> whence -> S -> result unit * S;
  read : Z -> S -> result bytes * S;
  get_size : S -> result Z * S
}.
Arguments seek {S} _ _ _ _.
Arguments read {S} _ _ _.
Arguments get_size {S} _ _.

(** What [__getitem__] raises: [ValueError], which it raises itself, or what
    the file object raised. *)
Inductive error : Type :=
| ValueError
| Error (e : exn).

Inductive outcome (A : Type) : Type :=
| Return (a : A)
| Throw (e : error).
Arguments Return {A} a.
Arguments Throw {A} e.

Definition of_result {A : Type} (r : result A) : outcome A :=
  match r with
  | Ok a => Return a
  | Raise e => Throw (Error e)
  end.

Definition _MAXIMUM_READ_BUFFER_SIZE : Z := 16 * 1024 * 1024.

(** The attributes of a data slice beside its file object, whose state is
    passed along. *)
Record DataSlice : Type := {
  _buffer : bytes;
  _file_object_size : Z
}.

(** Lines 16-25. *)
Definition __init__ {S : Type} (file_object : FileIO S) (s : S)
    : result DataSlice * S :=
  match get_size file_object s with
  | (Ok n, s1) => (Ok {| _buffer := []; _file_object_size := n |}, s1)
  | (Raise e, s1) => (Raise e, s1)
  end.

(** The keys of [__getitem__]: an integer, a [slice(start, stop, step)] whose
    parts are integers or [None], or anything else. *)
Inductive key : Type :=
| KeyInt (k : Z)
| KeySlice (start stop step : option Z)
| KeyOther.

(** Lines 64-66: [key.start or 0], then negative values raised to 0. *)
Definition start_of (start : option Z) : Z :=
  let start_offset :=
    match start with
    | Some v => if truthy v then v else 0
    | None => 0
    end in
  if start_offset <? 0 then 0 else start_offset.

(** Lines 39-80. *)
Definition __getitem__ {S : Type} (file_object : FileIO S) (k : key) (s : S)
    : outcome bytes * S :=
  match k with
  | KeyInt i =>
      let '(r, s1) :=
        if i <? 0 then seek file_object i SEEK_END s
        else seek file_object i SEEK_SET s in
      match r with
      | Raise e => (Throw (Error e), s1)
      | Ok _ => let '(d, s2) := read file_object 1 s1 in (of_result d, s2)
      end
  | KeyOther => (Throw (Error TypeError), s)
  | KeySlice start stop step =>
      match step with
      | Some _ => (Throw ValueError, s)
      | None =>
          let start_offset := start_of start in
          let '(r_end, s1) :=
            match stop with
            | Some v => if truthy v then (Ok v, s) else get_size file_object s
            | None => get_size file_object s
            end in
          match r_end with
          | Raise e => (Throw (Error e), s1)
          | Ok end_offset =>
              if end_offset <? 0 then
                let '(r, s2) := seek file_object end_offset SEEK_END s1 in
                match r with
                | Raise e => (Throw (Error e), s2)
                | Ok _ =>
                    let read_size := - (start_offset - end_offset) in
                    let '(d, s3) := read file_object read_size s2 in
                    (of_result d, s3)
                end
              else
                let '(r, s2) := seek file_object start_offset SEEK_SET s1 in
                match r with
                | Raise e => (Throw (Error e), s2)
                | Ok _ =>
                    let read_size := end_offset - start_offset in
                    let '(d, s3) := read file_object read_size s2 in
                    (of_result d, s3)
                end
          end
      end
  end.

(** Modelled from the spec: the file objects of [dfvfs/file_io] are outside
    the sources at hand. Section 6 gives their contract: [read(size)],
    [seek(offset, whence)], [get_size()]. This one is a file held in memory,
    with the conventions of Python files: a seek to before the first byte
    raises [IOError], a read stops at the end of the data, and a read of
    negative size reads to the end. *)
Record BytesFile : Type := {
  data : bytes;
  offset : Z
}.

Definition bytes_seek (off : Z) (w : whence) (s : BytesFile)
    : result unit * BytesFile :=
  let target :=
    match w with
    | SEEK_SET => off
    | SEEK_END => Z.of_nat (length (data s)) + off
    end in
  if target <? 0 then (Raise IOError, s)
  else (Ok tt, {| data := data s; offset := target |}).

Definition bytes_read (size : Z) (s : BytesFile) : result bytes * BytesFile :=
  let rest := skipn (Z.to_nat (offset s)) (data s) in
  let got := if size <? 0 then rest else firstn (Z.to_nat size) rest in
  (Ok got, {| data := data s; offset := offset s + Z.of_nat (length got) |}).

Definition bytes_get_size (s : BytesFile) : result Z * BytesFile :=
  (Ok (Z.of_nat (length (data s))), s).

Definition BytesIO : FileIO BytesFile :=
  {| seek := bytes_seek; read := bytes_read; get_size := bytes_get_size |}.

(** Python's [d[a:b]] for [0 <= a] and [0 <= b]. *)
Definition py_slice (d : bytes) (a b : Z) : bytes :=
  firstn (Z.to_nat b - Z.to_nat a) (skipn (Z.to_nat a) d).

End data_slice.

(** ** Vocabulary of the properties, and sample inputs *)

Module samples.
Import tsk_partition tsk_partition_file_entry.

(** The child descriptor the enumeration is expected to build for record [p]
    found at position [i] of [parts]: [part_idx0] and [partition_idx0] are the
    values of the two counters before the first record of [parts]. *)
Definition child_of (par : PathSpec) (bytes_per_sector : Z)
    (part_idx0 partition_idx0 : Z) (parts : list tsk_vs_part)
    (i : nat) (p : tsk_vs_part) : PathSpec :=
  Build_PathSpec TYPE_INDICATOR_TSK_PARTITION
    (if TSKVsPartIsAllocated p
     then Some ("/p" ++ format_d (partition_idx0
                                  + allocated_count (firstn (S i) parts)))
     else None)
    (Some (part_idx0 + Z.of_nat i))
    (match TSKVsPartGetStartSector p with
     | Some start_sector => Some (start_sector * bytes_per_sector)
     | None => None
     end)
    (Some par).

(** A descriptor with a location is addressable. *)
Definition addressable (ps : PathSpec) : bool :=
  match location ps with Some _ => true | None => false end.

Definition label_and_index (ps : PathSpec) : option string * option Z :=
  (location ps, part_index ps).

(** Reading of "does not materialize the native records in bulk": the
    [next()] that produces the first entry of a fresh enumeration fetches at
    most one native record. *)
Definition fetches_on_demand (d : TSKPartitionDirectory) (w : world) : Prop :=
  forall out s w',
    gen_next d GenStart w = (out, s, w') ->
    (fetches (trace w') <= fetches (trace w) + 1)%nat.

(** Reading of "size equal to number_of_sectors * bytes_per_sector when the
    native record reports a number of sectors": whenever the stat is returned
    for an entry whose record reports [n] sectors, its size is that product. *)
Definition size_whenever_reported
    (lookup : tsk_volume -> PathSpec -> option tsk_vs_part * option Z)
    (e : TSKPartitionFileEntry) (w : world) : Prop :=
  forall st p n,
    fst (_GetStat lookup e w) = Ok st ->
    _tsk_vs_part (snd (_GetStat lookup e w)) = Some p ->
    TSKVsPartGetNumberOfSectors p = Some n ->
    size st = Some (n * TSKVolumeGetBytesPerSector (GetTSKVolume w)).

(** [GetFileObject()] called [n] times in a row on one entry. *)
Fixpoint GetFileObject_times
    (lookup : tsk_volume -> PathSpec -> option tsk_vs_part * option Z)
    (open : tsk_volume -> option tsk_vs_part -> option exn)
    (n : nat) (e : TSKPartitionFileEntry) (w : world)
    : list (result handle) * TSKPartitionFileEntry * world :=
  match n with
  | O => ([], e, w)
  | S n' =>
      let '(r, e1, w1) := GetFileObject lookup open e w in
      let '(rs, e2, w2) := GetFileObject_times lookup open n' e1 w1 in
      (r :: rs, e2, w2)
  end.

(** A raw image holding a partition table, and the root of that table. *)
Definition image_raw : PathSpec :=
  Build_PathSpec TYPE_INDICATOR_OS (Some "image.raw") None None None.

Definition partition_root : PathSpec :=
  Build_PathSpec TYPE_INDICATOR_TSK_PARTITION (Some "/") None None
                 (Some image_raw).

(** Three records: the first and the third allocated, the second not. *)
Definition record1 : tsk_vs_part :=
  {| vs_allocated := true; vs_start := Some 1; vs_len := Some 350 |}.
Definition record2 : tsk_vs_part :=
  {| vs_allocated := false; vs_start := Some 351; vs_len := Some 0 |}.
Definition record3 : tsk_vs_part :=
  {| vs_allocated := true; vs_start := Some 351; vs_len := Some 2528 |}.

Definition volume3 : tsk_volume :=
  {| vol_bytes_per_sector := 512; vol_parts := [record1; record2; record3] |}.

Definition world3 : world :=
  {| file_system := {| LOCATION_ROOT := "/"; _tsk_volume := volume3 |};
     trace := [];
     next_handle := O |}.

Definition root_directory : TSKPartitionDirectory :=
  {| dir_path_spec := partition_root |}.

(** A stand-in for the record lookup: by structural index. *)
Definition lookup_by_part_index (v : tsk_volume) (ps : PathSpec)
    : option tsk_vs_part * option Z :=
  match part_index ps with
  | Some i => (nth_error (vol_parts v) (Z.to_nat i), Some i)
  | None => (None, None)
  end.

(** The entry of the second record, as enumeration describes it. *)
Definition entry2 : TSKPartitionFileEntry :=
  new_entry (Build_PathSpec TYPE_INDICATOR_TSK_PARTITION None (Some 1)
                            (Some (351 * 512)) (Some image_raw))
            false false.

(** An entry whose descriptor denotes no record of the volume. *)
Definition entry9 : TSKPartitionFileEntry :=
  new_entry (Build_PathSpec TYPE_INDICATOR_TSK_PARTITION (Some "/p9") (Some 9)
                            None (Some image_raw))
            false false.

(** The virtual root entry. *)
Definition root_entry : TSKPartitionFileEntry :=
  new_entry partition_root true true.

End samples.

Module tar_samples.
Import tarfile tar_file_system.

(** An archive file on disk and descriptors of the archive layer over it. *)
Definition archive_tar : PathSpec :=
  Build_PathSpec TYPE_INDICATOR_OS (Some "archive.tar") None None None.

Definition tar_location (loc : string) : PathSpec :=
  Build_PathSpec TYPE_INDICATOR_TAR (Some loc) None None (Some archive_tar).

(** A descriptor of the archive kind that lacks its parent. *)
Definition orphan_tar : PathSpec :=
  Build_PathSpec TYPE_INDICATOR_TAR (Some "/") None None None.

(** An archive with a directory member and a file below it. *)
Definition dir_member : TarInfo := {| name := "dir"; member_size := 0 |}.
Definition file_member : TarInfo :=
  {| name := "dir/file.txt"; member_size := 12 |}.
Definition deep_member : TarInfo :=
  {| name := "notes/readme"; member_size := 5 |}.

Definition sample_tar : TarFile := [dir_member; file_member; deep_member].

Definition opened_tar : TARFileSystem :=
  {| _file_object := Some 7%nat; _tar_file := Some sample_tar;
     encoding := "utf-8" |}.

(** Collaborators for which the parent opens and the decoder then fails. *)
Definition failing_decoder : collaborators :=
  {| Resolver_OpenFileObject := fun _ _ => Ok 7%nat;
     tarfile_open := fun _ _ => Raise IOError;
     pyvhdi_open_file_object := fun _ _ => Some IOError;
     file_object_close := fun _ _ => None |}.

End tar_samples.

Module slice_samples.
Import Strings.Byte data_slice.

(** A five-byte file, 'hello', read from some earlier position. *)
Definition hello : bytes := [x68; x65; x6c; x6c; x6f].

Definition hello_file : BytesFile := {| data := hello; offset := 3 |}.

(** [slice(a, b)] and [slice(a, None)]. *)
Definition slice_of (a b : Z) : key := KeySlice (Some a) (Some b) None.
Definition slice_from (start : option Z) : key := KeySlice start None None.

(** [key.start or 0] raised to 0 when negative, said without the code:
    a missing start is 0 and a negative one counts as 0. *)
Definition clamped_start (start : option Z) : Z :=
  match start with
  | Some v => Z.max 0 v
  | None => 0
  end.

(** What [stop or get_size()] evaluates to on the in-memory file. *)
Definition end_of (d : bytes) (stop : option Z) : Z :=
  match stop with
  | Some v => if truthy v then v else Z.of_nat (length d)
  | None => Z.of_nat (length d)
  end.

(** The index an integer key denotes in a file of [n] bytes: negative keys
    count from the end. *)
Definition index_of (n : Z) (i : Z) : Z := if i <? 0 then n + i else i.

(** Three accesses one after the other, on the same file object. *)
Definition three_accesses (k1 k2 k3 : key) (s : BytesFile)
    : outcome bytes * outcome bytes * outcome bytes :=
  let '(r1, s1) := __getitem__ BytesIO k1 s in
  let '(r2, s2) := __getitem__ BytesIO k2 s1 in
  let '(r3, _) := __getitem__ BytesIO k3 s2 in
  (r1, r2, r3).

End slice_samples.

Module more_samples.
Import tarfile tar_file_system tar_samples tsk_partition.

(** A stand-in for [BasenamePath]: the location without its separator. *)
Definition basename_stub (path : string) : string := drop_first path.

(** A lookup that finds no record. *)
Definition never_found (v : tsk_volume) (ps : PathSpec)
    : option tsk_vs_part * option Z := (None, None).

(** Collaborators for which everything succeeds: the parent opens as file
    object 7 and decodes as the sample archive. *)
Definition all_succeed : collaborators :=
  {| Resolver_OpenFileObject := fun _ _ => Ok 7%nat;
     tarfile_open := fun _ _ => Ok sample_tar;
     pyvhdi_open_file_object := fun _ _ => None;
     file_object_close := fun _ _ => None |}.

Definition tar_closes (t : TarFile) (tr : list io_event) : option exn := None.
Definition tar_close_fails (t : TarFile) (tr : list io_event) : option exn :=
  Some IOError.

(** An archive in which the name 'a' occurs twice. *)
Definition first_a : TarInfo := {| name := "a"; member_size := 1 |}.
Definition second_a : TarInfo := {| name := "a"; member_size := 2 |}.
Definition twice_a : TARFileSystem :=
  {| _file_object := Some 7%nat; _tar_file := Some [first_a; second_a];
     encoding := "utf-8" |}.

(** A VHD image on disk and the descriptor of the VHD layer over it. *)
Definition image_vhd : PathSpec :=
  Build_PathSpec TYPE_INDICATOR_OS (Some "image.vhd") None None None.

Definition vhdi_over_image : PathSpec :=
  Build_PathSpec TYPE_INDICATOR_VHDI None None None (Some image_vhd).

End more_samples.

(** * Properties *)

Import tsk_partition samples.

(** ** Descriptors *)

Lemma parent_depth (ps p : PathSpec) :
  parent ps = Some p -> depth ps = S (depth p).
Proof.
  destruct ps as [k l i o [q|]]; simpl; intros H; inversion H; reflexivity.
Qed.

(** No descriptor is its own parent: the chain is finite. *)
Lemma parent_not_self (ps : PathSpec) : parent ps <> Some ps.
Proof.
  intros H. apply parent_depth in H. lia.
Qed.

Lemma HasParent_true (ps : PathSpec) :
  HasParent ps = true -> exists p, parent ps = Some p.
Proof.
  unfold HasParent. destruct (parent ps) as [p|]; [eauto | discriminate].
Qed.

Lemma HasParent_false (ps : PathSpec) :
  HasParent ps = false -> parent ps = None.
Proof.
  unfold HasParent. destruct (parent ps); [discriminate | reflexivity].
Qed.

(** ** Partition enumeration *)

Section Enumeration.
Import tsk_partition_file_entry.

Lemma allocated_count_cons (p : tsk_vs_part) (l : list tsk_vs_part) :
  allocated_count (p :: l)
  = (if TSKVsPartIsAllocated p then 1 else 0) + allocated_count l.
Proof.
  unfold allocated_count. simpl.
  destruct (TSKVsPartIsAllocated p); simpl length; lia.
Qed.

Lemma allocated_count_nil : allocated_count [] = 0.
Proof. reflexivity. Qed.

Lemma entries_loop_total (par : PathSpec) (bps : Z) (parts : list tsk_vs_part) :
  forall part_idx partition_idx,
    snd (entries_loop (Some par) bps part_idx partition_idx parts) = None
    /\ length (fst (entries_loop (Some par) bps part_idx partition_idx parts))
       = length parts.
Proof.
  induction parts as [|p rest IH]; intros part_idx partition_idx.
  - split; reflexivity.
  - cbn [entries_loop entry_of_part TSKPartitionPathSpec].
    match goal with
    | |- context [entries_loop (Some par) bps ?a ?b rest] =>
        specialize (IH a b);
        destruct (entries_loop (Some par) bps a b rest) as [ys err]
    end.
    simpl in *. destruct IH as [-> ->]. split; reflexivity.
Qed.

Lemma entries_loop_nth (par : PathSpec) (bps : Z) (parts : list tsk_vs_part) :
  forall part_idx partition_idx i p,
    nth_error parts i = Some p ->
    nth_error (fst (entries_loop (Some par) bps part_idx partition_idx parts)) i
    = Some (child_of par bps part_idx partition_idx parts i p).
Proof.
  induction parts as [|q rest IH]; intros part_idx partition_idx i p Hi.
  - destruct i; discriminate.
  - cbn [entries_loop entry_of_part TSKPartitionPathSpec].
    match goal with
    | |- context [entries_loop (Some par) bps ?a ?b rest] =>
        specialize (IH a b);
        destruct (entries_loop (Some par) bps a b rest) as [ys err]
    end.
    cbn [fst] in *.
    destruct i as [|i].
    + cbn in Hi. inversion Hi; subst q. cbn [nth_error].
      unfold child_of. cbn [firstn].
      rewrite allocated_count_cons, allocated_count_nil.
      replace (part_idx + Z.of_nat 0) with part_idx by lia.
      destruct (TSKVsPartIsAllocated p); [|reflexivity].
      replace (partition_idx + (1 + 0)) with (partition_idx + 1) by lia.
      reflexivity.
    + cbn in Hi. cbn [nth_error]. rewrite (IH i p Hi).
      unfold child_of.
      change (firstn (S (S i)) (q :: rest)) with (q :: firstn (S i) rest).
      rewrite allocated_count_cons.
      replace (part_idx + Z.of_nat (S i)) with (part_idx + 1 + Z.of_nat i)
        by lia.
      destruct (TSKVsPartIsAllocated p); [|reflexivity].
      destruct (TSKVsPartIsAllocated q).
      * replace (partition_idx + (1 + allocated_count (firstn (S i) rest)))
          with (partition_idx + 1 + allocated_count (firstn (S i) rest))
          by lia.
        reflexivity.
      * replace (partition_idx + (0 + allocated_count (firstn (S i) rest)))
          with (partition_idx + allocated_count (firstn (S i) rest))
          by lia.
        reflexivity.
Qed.

(** What the generator yields for the root directory of a volume. *)
Lemma yielded_root (d : TSKPartitionDirectory) (w : world) (par : PathSpec) :
  is_enumerable (file_system w) (dir_path_spec d) = true ->
  parent (dir_path_spec d) = Some par ->
  _EntriesGenerator d w
  = (entries_loop (Some par) (TSKVolumeGetBytesPerSector (GetTSKVolume w))
                  0 0 (vol_parts (GetTSKVolume w)),
     log (walk_events (length (vol_parts (GetTSKVolume w)))) w).
Proof.
  intros Hroot Hpar. unfold _EntriesGenerator, list_volume.
  rewrite Hroot, Hpar. reflexivity.
Qed.

End Enumeration.

Section EnumerationClaims.
Import tsk_partition_file_entry.

(** C1. Walking the records of a native volume in on-disk order, the
    enumeration of the root directory keeps two independent counters: every
    record, allocated or not, gets the zero-based structural index of its
    position, and only allocated records get a location, '/p' followed by
    the one-based count of allocated records up to and including it. In
    particular, for three records of which the first and the third are
    allocated and the second is not, exactly two entries are addressable:
    '/p1' with structural index 0 and '/p2' with structural index 2. *)
Theorem enumeration_two_counters
    (d : TSKPartitionDirectory) (w : world)
    (Hroot : is_enumerable (file_system w) (dir_path_spec d) = true)
    (Hparent : HasParent (dir_path_spec d) = true) :
  let parts := vol_parts (GetTSKVolume w) in
  ended_by d w = None
  /\ length (yielded d w) = length parts
  /\ (forall i p,
        nth_error parts i = Some p ->
        exists ps,
          nth_error (yielded d w) i = Some ps
          /\ part_index ps = Some (Z.of_nat i)
          /\ location ps
             = if TSKVsPartIsAllocated p
               then Some ("/p" ++ format_d (allocated_count (firstn (S i) parts)))
               else None)
  /\ (forall r1 r2 r3,
        parts = [r1; r2; r3] ->
        TSKVsPartIsAllocated r1 = true ->
        TSKVsPartIsAllocated r2 = false ->
        TSKVsPartIsAllocated r3 = true ->
        map label_and_index (yielded d w)
        = [(Some "/p1", Some 0); (None, Some 1); (Some "/p2", Some 2)]
        /\ map label_and_index (filter addressable (yielded d w))
           = [(Some "/p1", Some 0); (Some "/p2", Some 2)]).
Proof.
  intros parts.
  destruct (HasParent_true _ Hparent) as [par Hpar].
  unfold yielded, ended_by. rewrite (yielded_root d w par Hroot Hpar).
  cbn [fst snd]. fold parts.
  set (bps := TSKVolumeGetBytesPerSector (GetTSKVolume w)).
  destruct (entries_loop_total par bps parts 0 0) as [Herr Hlen].
  repeat split; [exact Herr | exact Hlen | | | ].
  - intros i p Hi. eexists. split.
    + apply entries_loop_nth. exact Hi.
    + unfold child_of. cbn [part_index location]. split.
      * f_equal.
      * rewrite Z.add_0_l. reflexivity.
  - rewrite H. cbn [entries_loop entry_of_part TSKPartitionPathSpec].
    rewrite H0, H1, H2. reflexivity.
  - rewrite H. cbn [entries_loop entry_of_part TSKPartitionPathSpec].
    rewrite H0, H1, H2. reflexivity.
Qed.

Lemma enumeration_two_counters_witness :
  map label_and_index (yielded root_directory world3)
  = [(Some "/p1", Some 0); (None, Some 1); (Some "/p2", Some 2)]
  /\ map label_and_index (filter addressable (yielded root_directory world3))
     = [(Some "/p1", Some 0); (Some "/p2", Some 2)].
Proof.
  exact (proj2 (proj2 (proj2
    (enumeration_two_counters root_directory world3 eq_refl eq_refl)))
    record1 record2 record3 eq_refl eq_refl eq_refl eq_refl).
Defined.

(** C2. Every record the enumeration of the root directory walks yields a
    child descriptor that carries the record's structural index; a start
    offset equal to start_sector * bytes_per_sector exactly when the record
    reports a start sector, and none otherwise; a location exactly when the
    record is allocated; and, as its parent, the parent of the enumerating
    directory's own descriptor (the physical source beneath the partition
    table), never the partition-table descriptor itself. *)
Theorem enumeration_child_descriptor
    (d : TSKPartitionDirectory) (w : world)
    (Hroot : is_enumerable (file_system w) (dir_path_spec d) = true)
    (Hparent : HasParent (dir_path_spec d) = true) :
  forall i p,
    nth_error (vol_parts (GetTSKVolume w)) i = Some p ->
    exists ps,
      nth_error (yielded d w) i = Some ps
      /\ part_index ps = Some (Z.of_nat i)
      /\ start_offset ps
         = match TSKVsPartGetStartSector p with
           | Some start_sector =>
               Some (start_sector
                     * TSKVolumeGetBytesPerSector (GetTSKVolume w))
           | None => None
           end
      /\ (location ps <> None <-> TSKVsPartIsAllocated p = true)
      /\ parent ps = parent (dir_path_spec d)
      /\ parent ps <> Some (dir_path_spec d).
Proof.
  intros i p Hi.
  destruct (HasParent_true _ Hparent) as [par Hpar].
  unfold yielded. rewrite (yielded_root d w par Hroot Hpar). cbn [fst].
  eexists. split; [apply entries_loop_nth; exact Hi|].
  unfold child_of. cbn [part_index start_offset location parent].
  repeat split.
  - destruct (TSKVsPartIsAllocated p); [reflexivity | congruence].
  - intros ->. discriminate.
  - symmetry. exact Hpar.
  - rewrite <- Hpar. apply parent_not_self.
Qed.

Lemma enumeration_child_descriptor_witness :
  exists ps,
    nth_error (yielded root_directory world3) 2 = Some ps
    /\ part_index ps = Some 2
    /\ start_offset ps = Some (351 * 512)
    /\ (location ps <> None <-> true = true)
    /\ parent ps = Some image_raw
    /\ parent ps <> Some partition_root.
Proof.
  exact (enumeration_child_descriptor root_directory world3
           eq_refl eq_refl 2%nat record3 eq_refl).
Defined.

End EnumerationClaims.

(** ** Laziness and re-enumeration *)

Section Restart.
Import tsk_partition_file_entry.

Lemma filter_app_length {A : Type} (f : A -> bool) (l1 l2 : list A) :
  length (filter f (l1 ++ l2))
  = (length (filter f l1) + length (filter f l2))%nat.
Proof.
  rewrite filter_app, length_app. reflexivity.
Qed.

Lemma fetches_map_fetch (n : nat) :
  forall k, fetches (map EvVolumeFetch (seq k n)) = n.
Proof.
  induction n as [|n IH]; intros k.
  - reflexivity.
  - cbn [seq map]. unfold fetches in *. cbn [filter length].
    f_equal. apply IH.
Qed.

Lemma walks_map_fetch (n : nat) :
  forall k, walks (map EvVolumeFetch (seq k n)) = 0%nat.
Proof.
  induction n as [|n IH]; intros k.
  - reflexivity.
  - cbn [seq map]. unfold walks in *. cbn [filter]. apply IH.
Qed.

Lemma fetches_walk_events (n : nat) : fetches (walk_events n) = n.
Proof.
  unfold walk_events. change (fetches (EvVolumeIter :: ?l)) with (fetches l).
  apply fetches_map_fetch.
Qed.

Lemma walks_walk_events (n : nat) : walks (walk_events n) = 1%nat.
Proof.
  unfold walk_events.
  change (walks (EvVolumeIter :: ?l)) with (S (walks l)).
  f_equal. apply walks_map_fetch.
Qed.

Lemma drain_S (fuel : nat) (d : TSKPartitionDirectory) (s : gen_state)
    (w : world) :
  drain (S fuel) d s w
  = match gen_next d s w with
    | (Yield ps, s', w') =>
        match drain fuel d s' w' with
        | Some (yielded, err, w'') => Some (ps :: yielded, err, w'')
        | None => None
        end
    | (StopIteration, _, w') => Some ([], None, w')
    | (GenRaise e, _, w') => Some ([], Some e, w')
    end.
Proof. reflexivity. Qed.

(** Inside the loop the generator is driven by the list made at line 62. *)
Lemma drain_loop (d : TSKPartitionDirectory) (pending : list tsk_vs_part) :
  forall (extra : nat) (bps part_idx partition_idx : Z) (w : world),
    drain (S (length pending + extra)) d
          (GenLoop pending bps part_idx partition_idx) w
    = Some (entries_loop (parent (dir_path_spec d)) bps part_idx partition_idx
                         pending, w).
Proof.
  induction pending as [|p rest IH];
    intros extra bps part_idx partition_idx w.
  - reflexivity.
  - change (S (length (p :: rest) + extra))
      with (S (S (length rest + extra))).
    rewrite drain_S. cbn [gen_next loop_next entries_loop].
    destruct (entry_of_part (parent (dir_path_spec d)) bps part_idx
                            partition_idx p) as [[[ps|e] pi'] ai'].
    + rewrite IH.
      destruct (entries_loop (parent (dir_path_spec d)) bps pi' ai' rest).
      reflexivity.
    + reflexivity.
Qed.

(** Calling [next()] until the generator stops produces what
    [_EntriesGenerator] denotes, in finitely many calls. *)
Lemma drain_start (d : TSKPartitionDirectory) (w : world) (extra : nat) :
  drain (S (length (vol_parts (GetTSKVolume w)) + extra)) d GenStart w
  = Some (_EntriesGenerator d w).
Proof.
  unfold _EntriesGenerator. rewrite drain_S. cbn [gen_next].
  destruct (is_enumerable (file_system w) (dir_path_spec d)); [|reflexivity].
  unfold list_volume.
  set (bps := TSKVolumeGetBytesPerSector (GetTSKVolume w)).
  set (w' := log _ w).
  destruct (vol_parts (GetTSKVolume w)) as [|p rest].
  - reflexivity.
  - cbn [loop_next entries_loop].
    change (length (p :: rest) + extra)%nat with (S (length rest + extra)).
    destruct (entry_of_part (parent (dir_path_spec d)) bps 0 0 p)
      as [[[ps|e] pi'] ai'].
    + rewrite drain_loop.
      destruct (entries_loop (parent (dir_path_spec d)) bps pi' ai' rest).
      reflexivity.
    + reflexivity.
Qed.

(** The first [next()] walks the whole volume. *)
Lemma gen_next_start_trace (d : TSKPartitionDirectory) (w : world) :
  is_enumerable (file_system w) (dir_path_spec d) = true ->
  trace (snd (gen_next d GenStart w))
  = (trace w ++ walk_events (length (vol_parts (GetTSKVolume w))))%list
  /\ file_system (snd (gen_next d GenStart w)) = file_system w.
Proof.
  intros Hroot. cbn [gen_next]. rewrite Hroot. unfold list_volume.
  split; reflexivity.
Qed.

End Restart.

Section RestartClaims.
Import tsk_partition_file_entry.

Lemma entries_generator_world (d : TSKPartitionDirectory) (w : world) :
  is_enumerable (file_system w) (dir_path_spec d) = true ->
  snd (_EntriesGenerator d w)
  = log (walk_events (length (vol_parts (GetTSKVolume w)))) w.
Proof.
  intros Hroot. unfold _EntriesGenerator, list_volume. rewrite Hroot.
  reflexivity.
Qed.

Lemma yielded_log (d : TSKPartitionDirectory) (w : world) (evs : list event) :
  yielded d (log evs w) = yielded d w.
Proof.
  unfold yielded, _EntriesGenerator, list_volume, GetTSKVolume.
  cbn [log file_system].
  destruct (is_enumerable (file_system w) (dir_path_spec d)); reflexivity.
Qed.

Lemma walks_app (l1 l2 : list event) :
  walks (l1 ++ l2) = (walks l1 + walks l2)%nat.
Proof. apply filter_app_length. Qed.

Lemma fetches_app (l1 l2 : list event) :
  fetches (l1 ++ l2) = (fetches l1 + fetches l2)%nat.
Proof. apply filter_app_length. Qed.

(** Counterexample to C8 as stated: on the three-record volume the [next()]
    that yields the first entry has already fetched all three records. *)
Lemma enumeration_not_on_demand :
  ~ fetches_on_demand root_directory world3.
Proof.
  intros H. specialize (H _ _ _ eq_refl). vm_compute in H. lia.
Qed.

(** C8, amended. Partition enumeration is a restartable sequence of
    descriptors handed out one per [next()]; the native records, however, are
    materialized in bulk: the first [next()] of every enumeration walks the
    whole native volume from its first record, and later calls fetch nothing.
    Every re-enumeration performs that walk anew and depends on no state left
    by a previous walk; the entry's [sub_file_entries] keeps only the
    directory object and wraps a fresh enumeration each time. *)
Theorem enumeration_walks_anew
    (d : TSKPartitionDirectory) (w : world)
    (Hroot : is_enumerable (file_system w) (dir_path_spec d) = true) :
  let parts := vol_parts (GetTSKVolume w) in
  let after := snd (_EntriesGenerator d w) in
  trace (snd (gen_next d GenStart w))
  = (trace w ++ walk_events (length parts))%list
  /\ fetches (trace (snd (gen_next d GenStart w)))
     = (fetches (trace w) + length parts)%nat
  /\ (forall pending bps part_idx partition_idx w0,
        snd (gen_next d (GenLoop pending bps part_idx partition_idx) w0) = w0)
  /\ (forall extra,
        drain (S (length parts + extra)) d GenStart w
        = Some (_EntriesGenerator d w))
  /\ yielded d w
     = fst (entries_loop (parent (dir_path_spec d))
                         (TSKVolumeGetBytesPerSector (GetTSKVolume w))
                         0 0 parts)
  /\ walks (trace after) = S (walks (trace w))
  /\ yielded d after = yielded d w
  /\ walks (trace (snd (_EntriesGenerator d after))) = S (S (walks (trace w)))
  /\ (forall lookup e,
        _directory e = Some d ->
        sub_file_entries lookup e w
        = (map (fun ps => new_entry ps false false) (yielded d w),
           ended_by d w, e, after)).
Proof.
  intros parts after.
  assert (Hafter : after = log (walk_events (length parts)) w)
    by (apply entries_generator_world; exact Hroot).
  destruct (gen_next_start_trace d w Hroot) as [Htr _].
  repeat split.
  - exact Htr.
  - rewrite Htr, fetches_app, fetches_walk_events. reflexivity.
  - intros extra. apply drain_start.
  - unfold yielded, _EntriesGenerator, list_volume. rewrite Hroot.
    reflexivity.
  - rewrite Hafter. cbn [log trace].
    rewrite walks_app, walks_walk_events. lia.
  - rewrite Hafter. apply yielded_log.
  - rewrite entries_generator_world by (rewrite Hafter; exact Hroot).
    rewrite Hafter. cbn [log trace].
    rewrite !walks_app, !walks_walk_events. lia.
  - intros lookup e He. unfold sub_file_entries. rewrite He.
    unfold yielded, ended_by, after.
    destruct (_EntriesGenerator d w) as [[specs err] w']. reflexivity.
Qed.

Lemma enumeration_walks_anew_witness :
  fetches (trace (snd (gen_next root_directory GenStart world3))) = 3%nat
  /\ walks (trace (snd (_EntriesGenerator root_directory
                          (snd (_EntriesGenerator root_directory world3)))))
     = 2%nat.
Proof.
  pose proof (enumeration_walks_anew root_directory world3 eq_refl) as H.
  cbv zeta in H.
  destruct H as (_ & Hfetch & _ & _ & _ & _ & _ & Hwalks & _).
  split; [exact Hfetch | exact Hwalks].
Defined.

End RestartClaims.

(** ** Entry metadata *)

Section StatClaims.
Import tsk_partition_file_entry.

Variable lookup : tsk_volume -> PathSpec -> option tsk_vs_part * option Z.

(** The native record [_GetStat] works with: the one kept on the entry, or
    else the one its descriptor denotes. *)
Lemma cache_tsk_vs_part_record (e : TSKPartitionFileEntry) (w : world) :
  _tsk_vs_part (cache_tsk_vs_part lookup e w)
  = match _tsk_vs_part e with
    | Some p => Some p
    | None => GetTSKVsPart lookup e w
    end.
Proof.
  unfold cache_tsk_vs_part. destruct (_tsk_vs_part e) eqn:E.
  - exact E.
  - reflexivity.
Qed.

Lemma cache_tsk_vs_part_virtual (e : TSKPartitionFileEntry) (w : world) :
  _is_virtual (cache_tsk_vs_part lookup e w) = _is_virtual e.
Proof.
  unfold cache_tsk_vs_part. destruct (_tsk_vs_part e); reflexivity.
Qed.

Lemma GetStat_entry (e : TSKPartitionFileEntry) (w : world) :
  snd (_GetStat lookup e w) = cache_tsk_vs_part lookup e w.
Proof.
  unfold _GetStat.
  destruct (_is_virtual (cache_tsk_vs_part lookup e w)),
           (_tsk_vs_part (cache_tsk_vs_part lookup e w)); reflexivity.
Qed.

(** Counterexample to C5 as stated: the second record reports a number of
    sectors, zero, and the stat of its entry has no size, not size 0. *)
Lemma stat_size_zero_sectors :
  ~ size_whenever_reported lookup_by_part_index entry2 world3.
Proof.
  intros H.
  specialize (H _ record2 0 eq_refl eq_refl eq_refl).
  discriminate H.
Qed.

(** C5, amended. For every partition entry that is virtual or whose native
    record is found, the stat is returned and: its size is
    number_of_sectors * bytes_per_sector when the record reports a non-zero
    number of sectors, and unknown otherwise (no record, no number, or zero
    sectors); its type is 'file' for a non-virtual entry and 'directory' for
    a virtual one; and for a non-virtual entry its allocation status is the
    record's. *)
Theorem stat_summary (e : TSKPartitionFileEntry) (w : world)
    (Hrecord : _is_virtual e = true
               \/ _tsk_vs_part (cache_tsk_vs_part lookup e w) <> None) :
  exists st,
    fst (_GetStat lookup e w) = Ok st
    /\ size st
       = match _tsk_vs_part (cache_tsk_vs_part lookup e w) with
         | Some p =>
             match TSKVsPartGetNumberOfSectors p with
             | Some n =>
                 if n =? 0 then None
                 else Some (n * TSKVolumeGetBytesPerSector (GetTSKVolume w))
             | None => None
             end
         | None => None
         end
    /\ type st = Some (if _is_virtual e then TYPE_DIRECTORY else TYPE_FILE)
    /\ (_is_virtual e = false ->
        exists p,
          _tsk_vs_part (cache_tsk_vs_part lookup e w) = Some p
          /\ is_allocated st = TSKVsPartIsAllocated p).
Proof.
  unfold _GetStat. rewrite cache_tsk_vs_part_virtual.
  destruct (_is_virtual e) eqn:Hv;
    destruct (_tsk_vs_part (cache_tsk_vs_part lookup e w)) as [p|] eqn:Hp.
  - eexists. split; [reflexivity|]. cbn [size type is_allocated].
    repeat split; [|discriminate].
    destruct (TSKVsPartGetNumberOfSectors p) as [n|]; [|reflexivity].
    unfold truthy. destruct (n =? 0); reflexivity.
  - eexists. split; [reflexivity|]. cbn [size type is_allocated].
    repeat split. discriminate.
  - eexists. split; [reflexivity|]. cbn [size type is_allocated].
    repeat split.
    + destruct (TSKVsPartGetNumberOfSectors p) as [n|]; [|reflexivity].
      unfold truthy. destruct (n =? 0); reflexivity.
    + intros _. exists p. split; reflexivity.
  - destruct Hrecord as [H|H]; [discriminate | congruence].
Qed.

(** C7. When the native record of an entry cannot be located from its
    descriptor, retrieving the stat of a non-virtual entry raises the
    backend error, while for a virtual entry the stat is returned. *)
Theorem stat_missing_record (e : TSKPartitionFileEntry) (w : world)
    (Hslot : _tsk_vs_part e = None)
    (Hmissing : GetTSKVsPart lookup e w = None) :
  (_is_virtual e = false -> fst (_GetStat lookup e w) = Raise BackEndError)
  /\ (_is_virtual e = true ->
      exists st,
        fst (_GetStat lookup e w) = Ok st
        /\ type st = Some TYPE_DIRECTORY /\ size st = None).
Proof.
  assert (Hp : _tsk_vs_part (cache_tsk_vs_part lookup e w) = None)
    by (rewrite cache_tsk_vs_part_record, Hslot; exact Hmissing).
  unfold _GetStat. rewrite cache_tsk_vs_part_virtual, Hp.
  split; intros Hv; rewrite Hv.
  - reflexivity.
  - eexists. repeat split.
Qed.

End StatClaims.

Section StatWitnesses.
Import tsk_partition_file_entry.

Lemma stat_summary_witness :
  exists st,
    fst (_GetStat lookup_by_part_index entry2 world3) = Ok st
    /\ size st = None
    /\ type st = Some TYPE_FILE
    /\ (false = false ->
        exists p,
          _tsk_vs_part (cache_tsk_vs_part lookup_by_part_index entry2 world3)
          = Some p
          /\ is_allocated st = TSKVsPartIsAllocated p).
Proof.
  apply (stat_summary lookup_by_part_index entry2 world3).
  right. discriminate.
Defined.

Lemma stat_missing_record_witness :
  (false = false ->
   fst (_GetStat lookup_by_part_index entry9 world3) = Raise BackEndError)
  /\ (false = true ->
      exists st,
        fst (_GetStat lookup_by_part_index entry9 world3) = Ok st
        /\ type st = Some TYPE_DIRECTORY /\ size st = None).
Proof.
  exact (stat_missing_record lookup_by_part_index entry9 world3
           eq_refl eq_refl).
Defined.

End StatWitnesses.

(** ** The cached file object of an entry *)

Section FileObjectClaims.
Import tsk_partition_file_entry.

Variable lookup : tsk_volume -> PathSpec -> option tsk_vs_part * option Z.
Variable open : tsk_volume -> option tsk_vs_part -> option exn.

(** Once the slot is filled, [GetFileObject] only reads it. *)
Lemma GetFileObject_cached (e : TSKPartitionFileEntry) (h : handle) :
  _file_object e = Some h ->
  forall w, GetFileObject lookup open e w = (Ok h, e, w).
Proof.
  intros He w. unfold GetFileObject. rewrite He. reflexivity.
Qed.

Lemma GetFileObject_times_cached (e : TSKPartitionFileEntry) (h : handle) :
  _file_object e = Some h ->
  forall n w,
    GetFileObject_times lookup open n e w = (repeat (Ok h) n, e, w).
Proof.
  intros He n. induction n as [|n IH]; intros w.
  - reflexivity.
  - cbn [GetFileObject_times repeat].
    rewrite (GetFileObject_cached e h He), IH. reflexivity.
Qed.

Lemma constructions_app (l1 l2 : list event) :
  constructions (l1 ++ l2) = (constructions l1 + constructions l2)%nat.
Proof. apply filter_app_length. Qed.

(** C9. [GetFileObject] constructs the file object of an entry at most once:
    a call on an entry without one constructs it, keeps it on the entry and
    opens it; from then on every call on that entry, in whatever world,
    returns that same object and constructs nothing. *)
Theorem get_file_object_once (e : TSKPartitionFileEntry) (w : world) :
  let first := GetFileObject lookup open e w in
  let e1 := snd (fst first) in
  let w1 := snd first in
  exists h,
    _file_object e1 = Some h
    /\ (fst (fst first) = Ok h
        \/ exists x, fst (fst first) = Raise x /\ _file_object e = None)
    /\ (_file_object e = None ->
        h = next_handle w
        /\ trace w1
           = (trace w ++ [EvNewPartitionFile h; EvOpenPartitionFile h])%list)
    /\ (_file_object e <> None -> e1 = e /\ w1 = w)
    /\ (constructions (trace w1) <= S (constructions (trace w)))%nat
    /\ (forall w2, GetFileObject lookup open e1 w2 = (Ok h, e1, w2))
    /\ (forall n w2,
          GetFileObject_times lookup open n e1 w2 = (repeat (Ok h) n, e1, w2)).
Proof.
  intros first e1 w1.
  destruct (_file_object e) as [h|] eqn:He.
  - assert (Hfirst : first = (Ok h, e, w))
      by (apply GetFileObject_cached; exact He).
    subst e1 w1. rewrite Hfirst. cbn [fst snd]. exists h.
    split; [exact He|].
    split; [left; reflexivity|].
    split; [discriminate|].
    split; [intros _; split; reflexivity|].
    split; [lia|].
    split.
    + intros w2. apply GetFileObject_cached. exact He.
    + intros n w2. apply GetFileObject_times_cached. exact He.
  - set (h := next_handle w).
    set (e2 := set_file_object (cache_tsk_vs_part lookup e w) (Some h)).
    set (w' := {| file_system := file_system w;
                  trace := trace w
                           ++ [EvNewPartitionFile h; EvOpenPartitionFile h];
                  next_handle := S h |}).
    assert (Hfirst : exists r, first = (r, e2, w')
                               /\ (r = Ok h \/ exists x, r = Raise x)).
    { subst first. unfold GetFileObject. rewrite He. fold h e2 w'.
      destruct (open (GetTSKVolume w)
                     (_tsk_vs_part (cache_tsk_vs_part lookup e w))) as [x|].
      - exists (Raise x). split; [reflexivity | right; eauto].
      - exists (Ok h). split; [reflexivity | left; reflexivity]. }
    destruct Hfirst as (r & Hfirst & Hr).
    subst e1 w1. rewrite Hfirst. cbn [fst snd]. exists h.
    assert (He2 : _file_object e2 = Some h) by reflexivity.
    split; [exact He2|].
    split.
    { destruct Hr as [->|[x ->]]; [left; reflexivity|].
      right. exists x. split; reflexivity. }
    split; [intros _; split; reflexivity|].
    split; [congruence|].
    split.
    { subst w'. cbn [trace]. rewrite constructions_app. cbn. lia. }
    split.
    + intros w2. apply GetFileObject_cached. exact He2.
    + intros n w2. apply GetFileObject_times_cached. exact He2.
Qed.

End FileObjectClaims.

(** ** The archive file system: existence and lookup *)

Section TarLookup.
Import tarfile tar_file_system tar_samples.

Lemma prefix_refl (s : string) : String.prefix s s = true.
Proof.
  induction s as [|c s IH]; [reflexivity|].
  cbn [String.prefix]. destruct (ascii_dec c c); [exact IH | congruence].
Qed.

Lemma startswith_self (s : string) : startswith s s = true.
Proof. apply prefix_refl. Qed.

(** [getmember] returns a member of the requested name, or raises [KeyError]
    when the archive has none. *)
Lemma getmember_spec (t : TarFile) (n : string) :
  match getmember t n with
  | Ok m => In m t /\ name m = n
  | Raise e => e = KeyError /\ forall m, In m t -> name m <> n
  end.
Proof.
  unfold getmember.
  destruct (find (fun m => String.eqb n (name m)) (List.rev t)) as [m|] eqn:E.
  - apply find_some in E. destruct E as [Hin Heq].
    split; [apply in_rev; exact Hin|].
    apply String.eqb_eq in Heq. congruence.
  - split; [reflexivity|]. intros m Hin Hname.
    apply in_rev in Hin. pose proof (find_none _ _ E m Hin) as F.
    cbn beta in F. apply String.eqb_neq in F. congruence.
Qed.

Lemma getmember_absent (t : TarFile) (n : string) :
  (forall m, In m t -> name m <> n) -> getmember t n = Raise KeyError.
Proof.
  intros H. pose proof (getmember_spec t n) as S.
  destruct (getmember t n) as [m|e].
  - destruct S as [Hin Hname]. exfalso. exact (H m Hin Hname).
  - destruct S as [-> _]. reflexivity.
Qed.

Lemma existsb_startswith_true (t : TarFile) (p : string) (m : TarInfo) :
  In m t -> startswith (name m) p = true ->
  existsb (fun n => startswith n p) (getnames t) = true.
Proof.
  intros Hin Hp. apply existsb_exists. exists (name m). split; [|exact Hp].
  unfold getnames. apply in_map. exact Hin.
Qed.

Lemma existsb_startswith_false (t : TarFile) (p : string) :
  (forall m, In m t -> startswith (name m) p = false) ->
  existsb (fun n => startswith n p) (getnames t) = false.
Proof.
  intros H. destruct (existsb _ _) eqn:E; [|reflexivity].
  apply existsb_exists in E. destruct E as (n & Hin & Hn).
  unfold getnames in Hin. apply in_map_iff in Hin.
  destruct Hin as (m & <- & Hm). rewrite (H m Hm) in Hn. discriminate.
Qed.

(** In an opened archive neither operation raises. *)
Lemma exists_total (self : TARFileSystem) (t : TarFile) (ps : PathSpec) :
  _tar_file self = Some t ->
  exists b, FileEntryExistsByPathSpec self ps = Ok b.
Proof.
  intros Hopen. unfold FileEntryExistsByPathSpec. rewrite Hopen.
  destruct (location ps) as [loc|]; [|eauto].
  destruct (negb (startswith loc LOCATION_ROOT)); [eauto|].
  destruct (Nat.eqb (String.length loc) 1); [eauto|].
  pose proof (getmember_spec t (drop_first loc)) as S.
  destruct (getmember t (drop_first loc)) as [m|e]; [eauto|].
  destruct S as [-> _]. eauto.
Qed.

(** [GetFileEntryByPathSpec], by the answer of
    [FileEntryExistsByPathSpec]. *)
Lemma get_entry_cases (self : TARFileSystem) (t : TarFile) (ps : PathSpec) :
  _tar_file self = Some t ->
  (FileEntryExistsByPathSpec self ps = Ok false
   /\ GetFileEntryByPathSpec self ps = Ok None)
  \/ (FileEntryExistsByPathSpec self ps = Ok true
      /\ exists e, GetFileEntryByPathSpec self ps = Ok (Some e)).
Proof.
  intros Hopen. unfold GetFileEntryByPathSpec.
  destruct (exists_total self t ps Hopen) as [b Hb]. rewrite Hb.
  destruct b; [right | left; split; reflexivity].
  split; [reflexivity|].
  unfold FileEntryExistsByPathSpec in Hb. rewrite Hopen in *.
  destruct (location ps) as [loc|]; [|discriminate].
  destruct (Nat.eqb (String.length loc) 1); [eauto|].
  pose proof (getmember_spec t (drop_first loc)) as S.
  destruct (getmember t (drop_first loc)) as [m|e]; [eauto|].
  destruct S as [-> _]. eauto.
Qed.

End TarLookup.

Section TarLookupClaims.
Import tarfile tar_file_system tar_samples.

(** X17. In an opened archive, a descriptor without location, with a
    location that does not begin with the root separator, or with a location
    other than the root whose text after the separator starts the name of no
    member, gets [False] from [FileEntryExistsByPathSpec] and [None] from
    [GetFileEntryByPathSpec]; and for no descriptor at all does either
    operation raise. *)
Theorem absent_entry_not_found
    (self : TARFileSystem) (tar_file : TarFile) (ps : PathSpec)
    (Hopen : _tar_file self = Some tar_file)
    (Habsent : forall loc,
        location ps = Some loc ->
        startswith loc LOCATION_ROOT = true ->
        String.length loc <> 1%nat
        /\ forall m, In m tar_file ->
                     startswith (name m) (drop_first loc) = false) :
  FileEntryExistsByPathSpec self ps = Ok false
  /\ GetFileEntryByPathSpec self ps = Ok None
  /\ forall ps',
       (exists b, FileEntryExistsByPathSpec self ps' = Ok b)
       /\ (exists o, GetFileEntryByPathSpec self ps' = Ok o).
Proof.
  assert (Hex : FileEntryExistsByPathSpec self ps = Ok false).
  { unfold FileEntryExistsByPathSpec. rewrite Hopen.
    destruct (location ps) as [loc|]; [|reflexivity].
    specialize (Habsent loc eq_refl).
    destruct (startswith loc LOCATION_ROOT); [|reflexivity].
    destruct (Habsent eq_refl) as [Hlen Hnames]. cbn [negb].
    apply Nat.eqb_neq in Hlen. rewrite Hlen.
    rewrite getmember_absent.
    - rewrite existsb_startswith_false by exact Hnames. reflexivity.
    - intros m Hin Hname. specialize (Hnames m Hin).
      rewrite Hname, startswith_self in Hnames. discriminate. }
  split; [exact Hex|]. split.
  - unfold GetFileEntryByPathSpec. rewrite Hex. reflexivity.
  - intros ps'. split; [exact (exists_total self tar_file ps' Hopen)|].
    destruct (get_entry_cases self tar_file ps' Hopen)
      as [[_ H]|[_ [e H]]]; eauto.
Qed.

Lemma absent_entry_not_found_witness :
  FileEntryExistsByPathSpec opened_tar (tar_location "/missing") = Ok false
  /\ GetFileEntryByPathSpec opened_tar (tar_location "/missing") = Ok None
  /\ forall ps',
       (exists b, FileEntryExistsByPathSpec opened_tar ps' = Ok b)
       /\ (exists o, GetFileEntryByPathSpec opened_tar ps' = Ok o).
Proof.
  apply (absent_entry_not_found opened_tar sample_tar
           (tar_location "/missing") eq_refl).
  intros loc Hloc _. inversion Hloc; subst loc. split.
  - discriminate.
  - intros m [<-|[<-|[<-|[]]]]; reflexivity.
Defined.

(** C10. In an opened archive [GetFileEntryByPathSpec] returns [None]
    exactly when [FileEntryExistsByPathSpec] returns [False], and an entry
    exactly when it returns [True]. The root location exists and yields the
    virtual root entry; a location whose text after the separator starts the
    name of a member exists, and when no native record backs it (no member
    has exactly that name) it yields a virtual entry without member record.
    Where a member of that name does back it, the entry is that member's. *)
Theorem entry_iff_exists
    (self : TARFileSystem) (tar_file : TarFile) (ps : PathSpec)
    (Hopen : _tar_file self = Some tar_file) :
  (GetFileEntryByPathSpec self ps = Ok None
   <-> FileEntryExistsByPathSpec self ps = Ok false)
  /\ ((exists e, GetFileEntryByPathSpec self ps = Ok (Some e))
      <-> FileEntryExistsByPathSpec self ps = Ok true)
  /\ (location ps = Some LOCATION_ROOT ->
      FileEntryExistsByPathSpec self ps = Ok true
      /\ GetFileEntryByPathSpec self ps
         = Ok (Some {| entry_path_spec := ps; is_root := true;
                       is_virtual := true; tar_info := None |}))
  /\ (forall loc m,
        location ps = Some loc ->
        startswith loc LOCATION_ROOT = true ->
        String.length loc <> 1%nat ->
        In m tar_file ->
        startswith (name m) (drop_first loc) = true ->
        FileEntryExistsByPathSpec self ps = Ok true
        /\ ((forall m', In m' tar_file -> name m' <> drop_first loc) ->
            GetFileEntryByPathSpec self ps
            = Ok (Some {| entry_path_spec := ps; is_root := false;
                          is_virtual := true; tar_info := None |}))
        /\ (forall m', getmember tar_file (drop_first loc) = Ok m' ->
            GetFileEntryByPathSpec self ps
            = Ok (Some {| entry_path_spec := ps; is_root := false;
                          is_virtual := false; tar_info := Some m' |}))).
Proof.
  pose proof (get_entry_cases self tar_file ps Hopen) as Hc.
  split; [|split; [|split]].
  - destruct Hc as [[Hx Hg]|[Hx [e Hg]]]; rewrite Hx, Hg;
      split; intros H; congruence.
  - destruct Hc as [[Hx Hg]|[Hx [e Hg]]]; rewrite Hx, Hg; split.
    + intros [e H]. discriminate.
    + discriminate.
    + reflexivity.
    + intros _. eauto.
  - intros Hloc. unfold GetFileEntryByPathSpec, FileEntryExistsByPathSpec.
    rewrite Hloc. split; reflexivity.
  - intros loc m Hloc Hroot Hlen Hin Hpre.
    apply Nat.eqb_neq in Hlen.
    assert (Hx : FileEntryExistsByPathSpec self ps = Ok true).
    { unfold FileEntryExistsByPathSpec. rewrite Hloc, Hroot, Hlen, Hopen.
      cbn [negb].
      pose proof (getmember_spec tar_file (drop_first loc)) as S.
      destruct (getmember tar_file (drop_first loc)) as [m'|e];
        [reflexivity|].
      destruct S as [-> _].
      rewrite (existsb_startswith_true tar_file _ m Hin Hpre). reflexivity. }
    split; [exact Hx|]. split.
    + intros Hnone. unfold GetFileEntryByPathSpec.
      rewrite Hx, Hloc, Hlen, Hopen.
      rewrite (getmember_absent _ _ Hnone). reflexivity.
    + intros m' Hm'. unfold GetFileEntryByPathSpec.
      rewrite Hx, Hloc, Hlen, Hopen, Hm'. reflexivity.
Qed.

Lemma entry_iff_exists_witness :
  FileEntryExistsByPathSpec opened_tar (tar_location "/notes") = Ok true
  /\ GetFileEntryByPathSpec opened_tar (tar_location "/notes")
     = Ok (Some {| entry_path_spec := tar_location "/notes";
                   is_root := false; is_virtual := true;
                   tar_info := None |}).
Proof.
  destruct (entry_iff_exists opened_tar sample_tar (tar_location "/notes")
              eq_refl) as (_ & _ & _ & H).
  destruct (H "/notes" deep_member eq_refl eq_refl ltac:(discriminate)
              (or_intror (or_intror (or_introl eq_refl))) eq_refl)
    as (Hx & Hvirtual & _).
  split; [exact Hx|]. apply Hvirtual.
  intros m' [<-|[<-|[<-|[]]]]; discriminate.
Defined.

End TarLookupClaims.

(** ** Opening a layer *)

Section OpenClaims.
Import tarfile tar_file_system tar_samples.

Lemma held_app (tr1 tr2 : list io_event) (h : handle) :
  held (tr1 ++ tr2) h = held tr1 h + held tr2 h.
Proof.
  unfold held. rewrite !filter_app, !length_app, !Nat2Z.inj_add. lia.
Qed.

(** A reference acquired and then closed leaves the balance as it was. *)
Lemma held_acquire_close (par : PathSpec) (fo : handle) (used : bool)
    (h : handle) :
  held [EvOpenFileObject par (Ok fo); EvTarfileOpen fo used; EvClose fo] h = 0.
Proof.
  unfold held. cbn [filter io_event_eqb_acquire io_event_eqb_close].
  destruct (Nat.eqb h fo); reflexivity.
Qed.

Lemma held_failed_acquire (par : PathSpec) (e : exn) (h : handle) :
  held [EvOpenFileObject par (Raise e)] h = 0.
Proof. reflexivity. Qed.

(** X16. Whenever [TARFileSystem._Open] fails, the file system object is
    left as it was and every file object is held exactly as often as before
    the call; in particular, when the parent's file object was acquired and
    [tarfile.open] then raised, the parent's [close()] is called after the
    failed decoder call and before the error leaves [_Open], and the error
    that leaves is the decoder's (or the one [close()] itself raised). *)
Theorem tar_open_failure_releases
    (c : collaborators) (self : TARFileSystem) (ps : PathSpec)
    (tr : list io_event)
    (Hfail : is_raise (fst (fst (_Open c self ps tr))) = true) :
  let tr' := snd (_Open c self ps tr) in
  snd (fst (_Open c self ps tr)) = self
  /\ (forall h, held tr' h = held tr h)
  /\ (forall par fo,
        parent ps = Some par ->
        Resolver_OpenFileObject c par tr = Ok fo ->
        tr' = (tr ++ [EvOpenFileObject par (Ok fo);
                      EvTarfileOpen fo false;
                      EvClose fo])%list
        /\ exists e,
             tarfile_open c fo (tr ++ [EvOpenFileObject par (Ok fo)]) = Raise e
             /\ fst (fst (_Open c self ps tr))
                = match file_object_close c fo
                          (tr ++ [EvOpenFileObject par (Ok fo);
                                  EvTarfileOpen fo false]) with
                  | Some e' => Raise e'
                  | None => Raise e
                  end).
Proof.
  intros tr'. subst tr'. revert Hfail. unfold _Open, HasParent.
  destruct (parent ps) as [par|]; cbn [negb].
  2:{ intros _. cbn [fst snd]. split; [reflexivity|].
      split; [reflexivity | discriminate]. }
  destruct (Resolver_OpenFileObject c par tr) as [fo|e] eqn:Hacq.
  2:{ intros _. cbn [fst snd]. split; [reflexivity|]. split.
      - intros h. rewrite held_app, held_failed_acquire. lia.
      - intros par' fo' Hpar Hfo. inversion Hpar; subst par'.
        rewrite Hacq in Hfo. discriminate. }
  destruct (tarfile_open c fo (tr ++ [EvOpenFileObject par (Ok fo)]))
    as [t|e] eqn:Hdec.
  { cbn [fst snd is_raise]. discriminate. }
  intros _.
  assert (Htrace :
    (((tr ++ [EvOpenFileObject par (Ok fo)]) ++ [EvTarfileOpen fo false])
       ++ [EvClose fo]
     = tr ++ [EvOpenFileObject par (Ok fo); EvTarfileOpen fo false;
              EvClose fo])%list)
    by (rewrite <- !app_assoc; reflexivity).
  assert (Htrace2 :
    (((tr ++ [EvOpenFileObject par (Ok fo)]) ++ [EvTarfileOpen fo false])
     = tr ++ [EvOpenFileObject par (Ok fo); EvTarfileOpen fo false])%list)
    by (rewrite <- !app_assoc; reflexivity).
  rewrite Htrace, Htrace2.
  destruct (file_object_close c fo
              (tr ++ [EvOpenFileObject par (Ok fo); EvTarfileOpen fo false]))
    as [e'|] eqn:Hclose; cbn [fst snd].
  - split; [reflexivity|]. split.
    + intros h. rewrite held_app, held_acquire_close. lia.
    + intros par' fo' Hpar Hfo. inversion Hpar; subst par'.
      rewrite Hacq in Hfo. inversion Hfo; subst fo'.
      split; [reflexivity|]. exists e. rewrite Hdec, Hclose.
      split; reflexivity.
  - split; [reflexivity|]. split.
    + intros h. rewrite held_app, held_acquire_close. lia.
    + intros par' fo' Hpar Hfo. inversion Hpar; subst par'.
      rewrite Hacq in Hfo. inversion Hfo; subst fo'.
      split; [reflexivity|]. exists e. rewrite Hdec, Hclose.
      split; reflexivity.
Qed.

Lemma tar_open_failure_releases_witness :
  snd (_Open failing_decoder (new_TARFileSystem "utf-8") (tar_location "/") [])
  = [EvOpenFileObject archive_tar (Ok 7%nat);
     EvTarfileOpen 7%nat false;
     EvClose 7%nat]
  /\ held (snd (_Open failing_decoder (new_TARFileSystem "utf-8")
                      (tar_location "/") [])) 7%nat = 0.
Proof.
  destruct (tar_open_failure_releases failing_decoder
              (new_TARFileSystem "utf-8") (tar_location "/") [] eq_refl)
    as (_ & Hheld & Hclose).
  split.
  - exact (proj1 (Hclose archive_tar 7%nat eq_refl eq_refl)).
  - exact (Hheld 7%nat).
Defined.

(** C4. Opening a descriptor that has no parent fails with the
    invalid-descriptor error before anything else happens, for the archive
    file system and for the VHD file object alike: the trace of calls is
    unchanged, so neither the resolver nor a decoder was invoked, and the
    file system object is untouched. *)
Theorem open_without_parent
    (c : collaborators) (self : TARFileSystem) (ps : PathSpec)
    (tr : list io_event)
    (Horphan : HasParent ps = false) :
  _Open c self ps tr = (Raise PathSpecError, self, tr)
  /\ vhdi_file_io._OpenFileObject c ps tr = (Raise PathSpecError, tr)
  /\ filter is_io (snd (_Open c self ps tr)) = filter is_io tr
  /\ filter is_io (snd (vhdi_file_io._OpenFileObject c ps tr))
     = filter is_io tr.
Proof.
  unfold _Open, vhdi_file_io._OpenFileObject. rewrite Horphan.
  repeat split.
Qed.

Lemma open_without_parent_witness :
  _Open failing_decoder (new_TARFileSystem "utf-8") orphan_tar []
  = (Raise PathSpecError, new_TARFileSystem "utf-8", [])
  /\ vhdi_file_io._OpenFileObject failing_decoder orphan_tar []
     = (Raise PathSpecError, []).
Proof.
  destruct (open_without_parent failing_decoder (new_TARFileSystem "utf-8")
              orphan_tar [] eq_refl) as (Htar & Hvhdi & _).
  split; [exact Htar | exact Hvhdi].
Defined.

(** [VhdiFile._OpenFileObject] has no handler around the decoder call: when
    [open_file_object] raises, the parent's file object stays acquired. *)
Lemma vhdi_open_failure_keeps_parent
    (c : collaborators) (ps par : PathSpec) (tr : list io_event)
    (fo : handle) (e : exn) :
  parent ps = Some par ->
  Resolver_OpenFileObject c par tr = Ok fo ->
  pyvhdi_open_file_object c fo (tr ++ [EvOpenFileObject par (Ok fo)]) = Some e ->
  fst (vhdi_file_io._OpenFileObject c ps tr) = Raise e
  /\ held (snd (vhdi_file_io._OpenFileObject c ps tr)) fo = held tr fo + 1.
Proof.
  intros Hpar Hacq Hdec. unfold vhdi_file_io._OpenFileObject, HasParent.
  rewrite Hpar. cbn [negb]. rewrite Hacq, Hdec. cbn [fst snd].
  split; [reflexivity|].
  rewrite <- app_assoc, held_app. unfold held at 2.
  simpl. rewrite Nat.eqb_refl. simpl. lia.
Qed.

End OpenClaims.

(** * Further properties of the embedded code *)

(** ** The data slice *)

Section DataSlice.
Import Strings.Byte data_slice slice_samples.

Lemma start_of_clamped (start : option Z) :
  start_of start = clamped_start start.
Proof.
  unfold start_of, clamped_start, truthy. destruct start as [v|]; [|reflexivity].
  destruct (Z.eqb_spec v 0) as [->|Hv]; cbn [negb]; [reflexivity|].
  destruct (Z.ltb_spec v 0); lia.
Qed.

Lemma clamped_start_nonneg (start : option Z) : 0 <= clamped_start start.
Proof. unfold clamped_start. destruct start; lia. Qed.

Lemma firstn_1_skipn {A : Type} (l : list A) :
  forall k,
    firstn 1 (skipn k l)
    = match nth_error l k with Some b => [b] | None => [] end.
Proof.
  induction l as [|x l IH]; intros [|k]; try reflexivity.
  cbn [skipn nth_error]. apply IH.
Qed.

Lemma firstn_firstn_skipn {A : Type} (m : nat) :
  forall (k : nat) (l : list A),
    (firstn m l ++ firstn k (skipn m l))%list = firstn (m + k) l.
Proof.
  induction m as [|m IH]; intros k l.
  - reflexivity.
  - destruct l as [|x l].
    + simpl. rewrite firstn_nil. reflexivity.
    + simpl. f_equal. apply IH.
Qed.

(** Consecutive pieces of a byte string make up the piece that spans them. *)
Lemma py_slice_app (d : bytes) (a b c : Z) :
  0 <= a <= b -> b <= c ->
  (py_slice d a b ++ py_slice d b c)%list = py_slice d a c.
Proof.
  intros Hab Hbc. unfold py_slice.
  replace (skipn (Z.to_nat b) d)
    with (skipn (Z.to_nat b - Z.to_nat a) (skipn (Z.to_nat a) d))
    by (rewrite skipn_skipn; f_equal; lia).
  rewrite firstn_firstn_skipn. f_equal. lia.
Qed.

(** What the in-memory file answers to a seek from the start followed by a
    read of a size that is not negative. *)
Lemma bytes_seek_read (s : BytesFile) (a n : Z) :
  0 <= a -> 0 <= n ->
  match bytes_seek a SEEK_SET s with
  | (Ok _, s1) =>
      fst (bytes_read n s1) = Ok (py_slice (data s) a (a + n))
      /\ data (snd (bytes_read n s1)) = data s
  | (Raise _, _) => False
  end.
Proof.
  intros Ha Hn. unfold bytes_seek.
  destruct (Z.ltb_spec a 0); [lia|].
  unfold bytes_read, py_slice. cbn [data offset fst snd].
  destruct (Z.ltb_spec n 0); [lia|].
  split; [|reflexivity].
  replace (Z.to_nat (a + n) - Z.to_nat a)%nat with (Z.to_nat n) by lia.
  reflexivity.
Qed.

Lemma bytes_seek_data (a : Z) (w : whence) (s : BytesFile) :
  data (snd (bytes_seek a w s)) = data s.
Proof.
  unfold bytes_seek. cbv zeta.
  destruct (match w with
            | SEEK_SET => a
            | SEEK_END => Z.of_nat (length (data s)) + a
            end <? 0); reflexivity.
Qed.

Lemma bytes_end_offset (stop : option Z) (s : BytesFile) :
  match stop with
  | Some v => if truthy v then (Ok v, s) else get_size BytesIO s
  | None => get_size BytesIO s
  end = (Ok (end_of (data s) stop), s).
Proof.
  unfold end_of. destruct stop as [v|]; [destruct (truthy v)|]; reflexivity.
Qed.

(** No access changes the bytes of the in-memory file. *)
Lemma getitem_data (k : key) (s : BytesFile) :
  data (snd (__getitem__ BytesIO k s)) = data s.
Proof.
  destruct k as [i|start stop step|]; cbn [__getitem__]; [| |reflexivity].
  - cbn [seek read BytesIO].
    set (sk := if i <? 0 then bytes_seek i SEEK_END s
               else bytes_seek i SEEK_SET s).
    assert (Hsk : data (snd sk) = data s)
      by (subst sk; destruct (i <? 0); apply bytes_seek_data).
    destruct sk as [[u|e] s1]; cbn [fst snd] in *; exact Hsk.
  - destruct step; [reflexivity|].
    rewrite bytes_end_offset. cbn [seek read BytesIO].
    destruct (end_of (data s) stop <? 0).
    + pose proof (bytes_seek_data (end_of (data s) stop) SEEK_END s) as Hsk.
      destruct (bytes_seek (end_of (data s) stop) SEEK_END s) as [[u|e] s1];
        cbn [fst snd] in *; exact Hsk.
    + pose proof (bytes_seek_data (start_of start) SEEK_SET s) as Hsk.
      destruct (bytes_seek (start_of start) SEEK_SET s) as [[u|e] s1];
        cbn [fst snd] in *; exact Hsk.
Qed.

(** The result of a slice whose stop is positive and not before its start,
    from any state of the file. *)
Lemma bounded_slice (s : BytesFile) (start : option Z) (e : Z) :
  0 < e -> clamped_start start <= e ->
  fst (__getitem__ BytesIO (KeySlice start (Some e) None) s)
  = Return (py_slice (data s) (clamped_start start) e).
Proof.
  intros He Hse. cbn [__getitem__].
  unfold truthy. destruct (Z.eqb_spec e 0) as [->|_]; [lia|].
  cbn [negb]. destruct (Z.ltb_spec e 0); [lia|].
  rewrite start_of_clamped. cbn [seek read BytesIO].
  pose proof (clamped_start_nonneg start) as H0.
  pose proof (bytes_seek_read s (clamped_start start)
                (e - clamped_start start) H0 ltac:(lia)) as Hsr.
  destruct (bytes_seek (clamped_start start) SEEK_SET s) as [[u|x] s1];
    [|contradiction].
  destruct Hsr as [Hr _].
  destruct (bytes_read (e - clamped_start start) s1) as [d s2].
  cbn [fst] in *. rewrite Hr. cbn [of_result].
  replace (clamped_start start + (e - clamped_start start)) with e by lia.
  reflexivity.
Qed.

(** X1. An integer key reads one byte: the byte at that offset, counted from
    the end when the key is negative; nothing when the offset is at or past
    the end of the file (no error); and the seek fails with [IOError] when a
    negative key reaches before the first byte. *)
Theorem data_slice_index (s : BytesFile) (i : Z) :
  let j := index_of (Z.of_nat (length (data s))) i in
  (j < 0 -> fst (__getitem__ BytesIO (KeyInt i) s) = Throw (Error IOError))
  /\ (0 <= j ->
      fst (__getitem__ BytesIO (KeyInt i) s)
      = Return (match nth_error (data s) (Z.to_nat j) with
                | Some b => [b]
                | None => []
                end)).
Proof.
  intros j. subst j. unfold index_of.
  cbn [__getitem__ seek read BytesIO]. unfold bytes_seek.
  destruct (Z.ltb_spec i 0) as [Hi|Hi]; cbv zeta.
  - destruct (Z.ltb_spec (Z.of_nat (length (data s)) + i) 0) as [Hj|Hj];
      split; intros Hc; try lia.
    + reflexivity.
    + unfold bytes_read. cbn [fst snd of_result data offset Z.ltb Z.compare].
      rewrite <- firstn_1_skipn. reflexivity.
  - destruct (Z.ltb_spec i 0) as [Hj|Hj]; [lia|].
    split; intros Hc; [lia|].
    unfold bytes_read. cbn [fst snd of_result data offset Z.ltb Z.compare].
    rewrite <- firstn_1_skipn. reflexivity.
Qed.

(** X2. A slice with a positive stop at or after its start returns the bytes
    from start up to stop, as Python's [data[start:stop]] does, cut at the end
    of the file; a missing start is 0, and a negative start counts as 0
    rather than from the end. *)
Theorem data_slice_bounded (s : BytesFile) (start : option Z) (e : Z)
    (Hstop : 0 < e) (Horder : clamped_start start <= e) :
  fst (__getitem__ BytesIO (KeySlice start (Some e) None) s)
  = Return (py_slice (data s) (clamped_start start) e)
  /\ (length (py_slice (data s) (clamped_start start) e)
      <= Z.to_nat (e - clamped_start start))%nat.
Proof.
  split; [apply bounded_slice; assumption|].
  unfold py_slice. rewrite length_firstn.
  pose proof (clamped_start_nonneg start). lia.
Qed.

Lemma data_slice_bounded_witness :
  fst (__getitem__ BytesIO (KeySlice (Some (-2)) (Some 4) None) hello_file)
  = Return [x68; x65; x6c; x6c]
  /\ (4 <= 4)%nat.
Proof.
  exact (data_slice_bounded hello_file (Some (-2)) 4
           ltac:(reflexivity) ltac:(discriminate)).
Defined.

(** X3. A slice whose stop is missing or 0 runs to the end of the file: it
    returns every byte from its start on (so [ds[a:0]] is not empty, unlike
    Python's [data[a:0]]). *)
Theorem data_slice_open_ended (s : BytesFile) (start stop : option Z)
    (Hstop : stop = None \/ stop = Some 0)
    (Hstart : clamped_start start <= Z.of_nat (length (data s))) :
  fst (__getitem__ BytesIO (KeySlice start stop None) s)
  = Return (skipn (Z.to_nat (clamped_start start)) (data s)).
Proof.
  cbn [__getitem__]. rewrite bytes_end_offset.
  assert (Hend : end_of (data s) stop = Z.of_nat (length (data s)))
    by (destruct Hstop as [->| ->]; reflexivity).
  rewrite Hend. destruct (Z.ltb_spec (Z.of_nat (length (data s))) 0); [lia|].
  rewrite start_of_clamped. cbn [seek read BytesIO].
  pose proof (clamped_start_nonneg start) as H0.
  pose proof (bytes_seek_read s (clamped_start start)
                (Z.of_nat (length (data s)) - clamped_start start)
                H0 ltac:(lia)) as Hsr.
  destruct (bytes_seek (clamped_start start) SEEK_SET s) as [[u|x] s1];
    [|contradiction].
  destruct Hsr as [Hr _].
  destruct (bytes_read _ s1) as [d s2].
  cbn [fst] in *. rewrite Hr. cbn [of_result]. f_equal.
  unfold py_slice. apply firstn_all2. rewrite length_skipn. lia.
Qed.

Lemma data_slice_open_ended_witness :
  fst (__getitem__ BytesIO (KeySlice (Some 3) (Some 0) None) hello_file)
  = Return [x6c; x6f].
Proof.
  exact (data_slice_open_ended hello_file (Some 3) (Some 0)
           (or_intror eq_refl) ltac:(discriminate)).
Defined.

(** On the in-memory file a seek answers by the bytes alone, and where it
    succeeds it leaves the same state whatever the position before. *)
Lemma bytes_seek_same_data (a : Z) (w : whence) (s s' : BytesFile) :
  data s = data s' ->
  fst (bytes_seek a w s) = fst (bytes_seek a w s')
  /\ (fst (bytes_seek a w s) = Ok tt ->
      snd (bytes_seek a w s) = snd (bytes_seek a w s')).
Proof.
  intros Hd. unfold bytes_seek. cbv zeta. rewrite Hd.
  destruct (match w with
            | SEEK_SET => a
            | SEEK_END => Z.of_nat (length (data s')) + a
            end <? 0); cbn [fst snd]; split; try reflexivity.
  discriminate.
Qed.

Lemma getitem_same_data (k : key) (s s' : BytesFile) :
  data s = data s' ->
  fst (__getitem__ BytesIO k s) = fst (__getitem__ BytesIO k s').
Proof.
  intros Hd.
  assert (Hseek : forall a w n,
    fst (let '(r, s1) := bytes_seek a w s in
         match r with
         | Raise e => (Throw (Error e), s1)
         | Ok _ => let '(d, s2) := bytes_read n s1 in (of_result d, s2)
         end)
    = fst (let '(r, s1) := bytes_seek a w s' in
           match r with
           | Raise e => (Throw (Error e), s1)
           | Ok _ => let '(d, s2) := bytes_read n s1 in (of_result d, s2)
           end)).
  { intros a w n.
    destruct (bytes_seek_same_data a w s s' Hd) as [Hr Hs].
    destruct (bytes_seek a w s) as [[[]|e] s1];
      destruct (bytes_seek a w s') as [[[]|e'] s1'];
      cbn [fst snd] in *; try discriminate.
    - rewrite (Hs eq_refl). reflexivity.
    - inversion Hr. reflexivity. }
  destruct k as [i|start stop step|]; cbn [__getitem__]; [| |reflexivity].
  - cbn [seek read BytesIO]. destruct (i <? 0); apply Hseek.
  - destruct step; [reflexivity|].
    rewrite !bytes_end_offset, Hd. cbn [seek read BytesIO].
    destruct (end_of (data s') stop <? 0); apply Hseek.
Qed.

(** X4. Every access positions the file itself before it reads, so what an
    access returns does not depend on the accesses made before it on the same
    file object. *)
Theorem data_slice_accesses_independent (k1 k2 : key) (s : BytesFile) :
  fst (__getitem__ BytesIO k2 (snd (__getitem__ BytesIO k1 s)))
  = fst (__getitem__ BytesIO k2 s).
Proof.
  apply getitem_same_data. apply getitem_data.
Qed.

(** X5. Adjacent slices join: for [0 <= a <= b <= c] with [b] positive,
    [ds[a:b]] followed by [ds[b:c]] returns, put together, what [ds[a:c]]
    returns. *)
Theorem data_slice_adjacent (s : BytesFile) (a b c : Z)
    (Hab : 0 <= a <= b) (Hbc : b <= c) (Hb : 0 < b) :
  exists x y,
    three_accesses (slice_of a b) (slice_of b c) (slice_of a c) s
    = (Return x, Return y, Return (x ++ y)%list).
Proof.
  unfold three_accesses, slice_of.
  assert (Ha : clamped_start (Some a) = a) by (cbn; lia).
  assert (Hb' : clamped_start (Some b) = b) by (cbn; lia).
  pose proof (bounded_slice s (Some a) b Hb ltac:(lia)) as H1.
  pose proof (getitem_data (KeySlice (Some a) (Some b) None) s) as D1.
  destruct (__getitem__ BytesIO (KeySlice (Some a) (Some b) None) s)
    as [r1 s1]. cbn [fst snd] in *.
  pose proof (bounded_slice s1 (Some b) c ltac:(lia) ltac:(lia)) as H2.
  pose proof (getitem_data (KeySlice (Some b) (Some c) None) s1) as D2.
  destruct (__getitem__ BytesIO (KeySlice (Some b) (Some c) None) s1)
    as [r2 s2]. cbn [fst snd] in *.
  pose proof (bounded_slice s2 (Some a) c ltac:(lia) ltac:(lia)) as H3.
  destruct (__getitem__ BytesIO (KeySlice (Some a) (Some c) None) s2)
    as [r3 s3]. cbn [fst] in *.
  subst r1 r2 r3. rewrite Ha, Hb', D2, D1.
  do 2 eexists. rewrite <- (py_slice_app (data s) a b c Hab Hbc).
  reflexivity.
Qed.

Lemma data_slice_adjacent_witness :
  exists x y,
    three_accesses (slice_of 1 3) (slice_of 3 9) (slice_of 1 9) hello_file
    = (Return x, Return y, Return (x ++ y)%list).
Proof.
  exact (data_slice_adjacent hello_file 1 3 9
           ltac:(lia) ltac:(lia) ltac:(lia)).
Defined.

End DataSlice.

(** ** More on partition enumeration and partition entries *)

Section MoreEnumeration.
Import tsk_partition_file_entry.

Lemma to_int_not_nil (z : Z) : Z.to_int z <> Pos Nil /\ Z.to_int z <> Neg Nil.
Proof.
  split; intros H;
    pose proof (DecimalZ.of_to z) as Hz; rewrite H in Hz; cbn in Hz;
    subst z; discriminate H.
Qed.

(** Decimal formatting tells numbers apart. *)
Lemma format_d_inj (a b : Z) : format_d a = format_d b -> a = b.
Proof.
  unfold format_d. intros H.
  apply (f_equal NilZero.int_of_string) in H.
  destruct (to_int_not_nil a) as [Ha1 Ha2].
  destruct (to_int_not_nil b) as [Hb1 Hb2].
  rewrite !NilZero.isi in H by assumption.
  inversion H as [H']. apply DecimalZ.to_int_inj. exact H'.
Qed.

Lemma allocated_count_firstn_le (l : list tsk_vs_part) :
  forall i j, (i <= j)%nat ->
    allocated_count (firstn i l) <= allocated_count (firstn j l).
Proof.
  induction l as [|p l IH]; intros i j Hij.
  - rewrite !firstn_nil. lia.
  - destruct i as [|i].
    + cbn [firstn]. unfold allocated_count. cbn [filter length]. lia.
    + destruct j as [|j]; [lia|]. cbn [firstn].
      rewrite !allocated_count_cons. specialize (IH i j). lia.
Qed.

Lemma allocated_count_firstn_S (l : list tsk_vs_part) :
  forall j p, nth_error l j = Some p ->
    allocated_count (firstn (S j) l)
    = allocated_count (firstn j l)
      + (if TSKVsPartIsAllocated p then 1 else 0).
Proof.
  induction l as [|q l IH]; intros j p Hj.
  - destruct j; discriminate.
  - destruct j as [|j].
    + cbn in Hj. inversion Hj; subst q. cbn [firstn].
      rewrite allocated_count_cons, !allocated_count_nil. lia.
    + cbn in Hj.
      change (firstn (S (S j)) (q :: l)) with (q :: firstn (S j) l).
      change (firstn (S j) (q :: l)) with (q :: firstn j l).
      rewrite !allocated_count_cons, (IH j p Hj). lia.
Qed.

(** The running count of allocated records grows at every allocated one. *)
Lemma allocated_count_lt (l : list tsk_vs_part) (i j : nat)
    (pj : tsk_vs_part) :
  (i < j)%nat -> nth_error l j = Some pj -> TSKVsPartIsAllocated pj = true ->
  allocated_count (firstn (S i) l) < allocated_count (firstn (S j) l).
Proof.
  intros Hij Hj Ha. rewrite (allocated_count_firstn_S l j pj Hj), Ha.
  pose proof (allocated_count_firstn_le l (S i) j ltac:(lia)). lia.
Qed.

Lemma addressable_count (par : PathSpec) (bps : Z) (parts : list tsk_vs_part) :
  forall part_idx partition_idx,
    length (filter addressable
              (fst (entries_loop (Some par) bps part_idx partition_idx parts)))
    = length (filter TSKVsPartIsAllocated parts).
Proof.
  induction parts as [|p rest IH]; intros part_idx partition_idx.
  - reflexivity.
  - cbn [entries_loop entry_of_part TSKPartitionPathSpec].
    match goal with
    | |- context [entries_loop (Some par) bps ?a ?b rest] =>
        specialize (IH a b);
        destruct (entries_loop (Some par) bps a b rest) as [ys err]
    end.
    cbn [fst filter] in *. unfold addressable at 1. cbn [location].
    destruct (TSKVsPartIsAllocated p); cbn [length]; rewrite IH; reflexivity.
Qed.

Lemma not_enumerable (d : TSKPartitionDirectory) (w : world) :
  part_index (dir_path_spec d) <> None
  \/ start_offset (dir_path_spec d) <> None
  \/ location (dir_path_spec d) <> Some (LOCATION_ROOT (file_system w)) ->
  is_enumerable (file_system w) (dir_path_spec d) = false.
Proof.
  unfold is_enumerable. intros H.
  destruct (part_index (dir_path_spec d)); [reflexivity|].
  destruct (start_offset (dir_path_spec d)); [reflexivity|].
  destruct (location (dir_path_spec d)) as [l|]; [|reflexivity].
  apply String.eqb_neq. intros ->.
  destruct H as [H|[H|H]]; congruence.
Qed.

(** X6. A directory whose descriptor carries a structural index or a start
    offset, or whose location is not the root of the file system, has no
    entries, and asking for them does not walk the native volume. *)
Theorem enumeration_only_at_root (d : TSKPartitionDirectory) (w : world)
    (Hnot_root :
       part_index (dir_path_spec d) <> None
       \/ start_offset (dir_path_spec d) <> None
       \/ location (dir_path_spec d) <> Some (LOCATION_ROOT (file_system w))) :
  _EntriesGenerator d w = ([], None, w)
  /\ gen_next d GenStart w = (StopIteration, GenDone, w)
  /\ forall lookup e,
       _directory e = Some d ->
       sub_file_entries lookup e w = ([], None, e, w).
Proof.
  pose proof (not_enumerable d w Hnot_root) as H.
  unfold _EntriesGenerator, sub_file_entries, gen_next. rewrite H.
  split; [reflexivity|]. split; [reflexivity|].
  intros lookup e He. rewrite He. unfold _EntriesGenerator. rewrite H.
  reflexivity.
Qed.

Lemma enumeration_only_at_root_witness :
  _EntriesGenerator {| dir_path_spec := path_spec entry2 |} world3
  = ([], None, world3).
Proof.
  assert (H : part_index (path_spec entry2) <> None) by discriminate.
  exact (proj1 (enumeration_only_at_root
                  {| dir_path_spec := path_spec entry2 |} world3
                  (or_introl H))).
Defined.

(** X7. The root enumeration gives as many addressable entries as the volume
    has allocated records, no two yielded descriptors share a structural
    index, and no two addressable ones share a location. *)
Theorem enumeration_locations_distinct
    (d : TSKPartitionDirectory) (w : world)
    (Hroot : is_enumerable (file_system w) (dir_path_spec d) = true)
    (Hparent : HasParent (dir_path_spec d) = true) :
  length (filter addressable (yielded d w))
  = length (filter TSKVsPartIsAllocated (vol_parts (GetTSKVolume w)))
  /\ forall i j ps1 ps2,
       i <> j ->
       nth_error (yielded d w) i = Some ps1 ->
       nth_error (yielded d w) j = Some ps2 ->
       part_index ps1 <> part_index ps2
       /\ (location ps1 <> None -> location ps1 <> location ps2).
Proof.
  destruct (HasParent_true _ Hparent) as [par Hpar].
  unfold yielded. rewrite (yielded_root d w par Hroot Hpar). cbn [fst].
  set (bps := TSKVolumeGetBytesPerSector (GetTSKVolume w)).
  set (parts := vol_parts (GetTSKVolume w)).
  split; [apply addressable_count|].
  intros i j ps1 ps2 Hij H1 H2.
  destruct (entries_loop_total par bps parts 0 0) as [_ Hlen].
  assert (Hi : exists p, nth_error parts i = Some p).
  { destruct (nth_error parts i) eqn:E; [eauto|].
    apply nth_error_None in E. rewrite <- Hlen in E.
    apply nth_error_None in E. congruence. }
  assert (Hj : exists p, nth_error parts j = Some p).
  { destruct (nth_error parts j) eqn:E; [eauto|].
    apply nth_error_None in E. rewrite <- Hlen in E.
    apply nth_error_None in E. congruence. }
  destruct Hi as [pi Hi]. destruct Hj as [pj Hj].
  rewrite (entries_loop_nth par bps parts 0 0 i pi Hi) in H1.
  rewrite (entries_loop_nth par bps parts 0 0 j pj Hj) in H2.
  inversion H1; subst ps1. inversion H2; subst ps2.
  unfold child_of. cbn [part_index location]. split.
  - intros E. inversion E. lia.
  - destruct (TSKVsPartIsAllocated pi) eqn:Ai; [|congruence]. intros _.
    destruct (TSKVsPartIsAllocated pj) eqn:Aj; [|discriminate].
    intros E.
    assert (E' : allocated_count (firstn (S i) parts)
                 = allocated_count (firstn (S j) parts)).
    { inversion E as [E']. apply format_d_inj in E'. exact E'. }
    destruct (Nat.lt_total i j) as [Hlt|[Heq|Hgt]]; [| congruence |].
    + pose proof (allocated_count_lt parts i j pj Hlt Hj Aj). lia.
    + pose proof (allocated_count_lt parts j i pi Hgt Hi Ai). lia.
Qed.

Lemma enumeration_locations_distinct_witness :
  length (filter addressable (yielded root_directory world3)) = 2%nat.
Proof.
  exact (proj1 (enumeration_locations_distinct root_directory world3
                  eq_refl eq_refl)).
Defined.

End MoreEnumeration.

(** ** More on partition entries *)

Section MoreEntries.
Import tsk_partition_file_entry more_samples.

Variable lookup : tsk_volume -> PathSpec -> option tsk_vs_part * option Z.

Lemma cache_tsk_vs_part_filled
    (lookup' : tsk_volume -> PathSpec -> option tsk_vs_part * option Z)
    (e : TSKPartitionFileEntry) (w : world) (p : tsk_vs_part) :
  _tsk_vs_part e = Some p -> cache_tsk_vs_part lookup' e w = e.
Proof.
  intros H. unfold cache_tsk_vs_part. rewrite H. reflexivity.
Qed.

(** X8. Once [_GetStat] has found the native record of an entry, the record
    stays on the entry: asking again gives the same stat and the same entry
    without consulting the lookup, whatever the lookup would answer now. *)
Theorem stat_record_cached (e : TSKPartitionFileEntry) (w : world)
    (p : tsk_vs_part)
    (Hfound : _tsk_vs_part (snd (_GetStat lookup e w)) = Some p) :
  forall lookup',
    _GetStat lookup' (snd (_GetStat lookup e w)) w = _GetStat lookup e w.
Proof.
  intros lookup'. rewrite GetStat_entry in *.
  set (e1 := cache_tsk_vs_part lookup e w) in *.
  assert (H1 : cache_tsk_vs_part lookup' e1 w = e1)
    by (apply (cache_tsk_vs_part_filled lookup' e1 w p); exact Hfound).
  assert (H2 : cache_tsk_vs_part lookup e1 w = e1)
    by (apply (cache_tsk_vs_part_filled lookup e1 w p); exact Hfound).
  unfold _GetStat. fold e1. rewrite H1. reflexivity.
Qed.

(** X9. A non-virtual entry has no sub entries and asking for them never
    walks the native volume: when its record is found the sequence is empty,
    and when it is not the request ends with the backend error. *)
Theorem sub_entries_of_partition (e : TSKPartitionFileEntry) (w : world)
    (Hconcrete : _is_virtual e = false)
    (Hdirectory : _directory e = None)
    (Hstat : _stat_object e = None) :
  exists e',
    sub_file_entries lookup e w
    = ([],
       match _tsk_vs_part (cache_tsk_vs_part lookup e w) with
       | Some _ => None
       | None => Some BackEndError
       end,
       e', w)
    /\ _directory e' = None.
Proof.
  unfold sub_file_entries, _GetDirectory. rewrite Hdirectory, Hstat.
  unfold _GetStat. rewrite cache_tsk_vs_part_virtual, Hconcrete.
  assert (Hd : _directory (cache_tsk_vs_part lookup e w) = None).
  { unfold cache_tsk_vs_part. destruct (_tsk_vs_part e); exact Hdirectory. }
  destruct (_tsk_vs_part (cache_tsk_vs_part lookup e w)) as [p|].
  - eexists. split; reflexivity.
  - eexists. split; [reflexivity | exact Hd].
Qed.

End MoreEntries.

Section MoreEntriesWitnesses.
Import tsk_partition_file_entry more_samples.

Lemma stat_record_cached_witness :
  _GetStat never_found (snd (_GetStat lookup_by_part_index entry2 world3))
           world3
  = _GetStat lookup_by_part_index entry2 world3.
Proof.
  exact (stat_record_cached lookup_by_part_index entry2 world3 record2
           eq_refl never_found).
Defined.

Lemma sub_entries_of_partition_witness :
  exists e',
    sub_file_entries lookup_by_part_index entry9 world3
    = ([], Some BackEndError, e', world3)
    /\ _directory e' = None.
Proof.
  exact (sub_entries_of_partition lookup_by_part_index entry9 world3
           eq_refl eq_refl eq_refl).
Defined.

End MoreEntriesWitnesses.

Section RootEntries.
Import tsk_partition_file_entry more_samples.

Variable lookup : tsk_volume -> PathSpec -> option tsk_vs_part * option Z.

Lemma cache_tsk_vs_part_path_spec (e : TSKPartitionFileEntry) (w : world) :
  path_spec (cache_tsk_vs_part lookup e w) = path_spec e.
Proof.
  unfold cache_tsk_vs_part. destruct (_tsk_vs_part e); reflexivity.
Qed.

(** A virtual entry that has not been asked before gets a directory over its
    own descriptor, which it keeps. *)
Lemma virtual_directory (e : TSKPartitionFileEntry) (w : world) :
  _is_virtual e = true -> _stat_object e = None ->
  exists e',
    _GetDirectory lookup e w = (Ok (Some {| dir_path_spec := path_spec e |}), e').
Proof.
  intros Hv Hs. unfold _GetDirectory, _GetStat.
  rewrite Hs, cache_tsk_vs_part_virtual, Hv.
  destruct (_tsk_vs_part (cache_tsk_vs_part lookup e w));
    cbn [type set_stat_object path_spec];
    rewrite cache_tsk_vs_part_path_spec; eexists; reflexivity.
Qed.

(** X10. The sub entries of the virtual root are one fresh, non-virtual,
    non-root entry per native record, in on-disk order, the i-th over the
    descriptor with structural index i and the root's own parent; producing
    them walks the volume once, and the root keeps its directory object. *)
Theorem sub_entries_of_root (e : TSKPartitionFileEntry) (w : world)
    (Hvirtual : _is_virtual e = true)
    (Hdirectory : _directory e = None)
    (Hstat : _stat_object e = None)
    (Hroot : is_enumerable (file_system w) (path_spec e) = true)
    (Hparent : HasParent (path_spec e) = true) :
  let parts := vol_parts (GetTSKVolume w) in
  exists children e',
    sub_file_entries lookup e w
    = (children, None, e', log (walk_events (length parts)) w)
    /\ _directory e' = Some {| dir_path_spec := path_spec e |}
    /\ length children = length parts
    /\ forall i p,
         nth_error parts i = Some p ->
         exists ps,
           nth_error children i = Some (new_entry ps false false)
           /\ part_index ps = Some (Z.of_nat i)
           /\ parent ps = parent (path_spec e).
Proof.
  intros parts.
  destruct (virtual_directory e w Hvirtual Hstat) as [e1 Hdir].
  destruct (HasParent_true _ Hparent) as [par Hpar].
  set (d := {| dir_path_spec := path_spec e |}) in *.
  pose proof (yielded_root d w par Hroot Hpar) as Hgen.
  set (bps := TSKVolumeGetBytesPerSector (GetTSKVolume w)) in *.
  fold parts in Hgen.
  destruct (entries_loop_total par bps parts 0 0) as [Herr Hlen].
  unfold sub_file_entries. rewrite Hdirectory, Hdir, Hgen.
  destruct (entries_loop (Some par) bps 0 0 parts) as [specs err] eqn:Hloop.
  cbn [fst snd] in *. subst err.
  do 2 eexists. split; [reflexivity|].
  split; [reflexivity|]. split; [rewrite length_map; exact Hlen|].
  intros i p Hi.
  pose proof (entries_loop_nth par bps parts 0 0 i p Hi) as Hnth.
  rewrite Hloop in Hnth. cbn [fst] in Hnth.
  exists (child_of par bps 0 0 parts i p). split.
  - apply (map_nth_error (fun ps => new_entry ps false false)).
    exact Hnth.
  - unfold child_of. cbn [part_index parent]. split.
    + f_equal.
    + symmetry. exact Hpar.
Qed.

End RootEntries.

Section RootEntriesWitness.
Import tsk_partition_file_entry more_samples.

Lemma sub_entries_of_root_witness :
  exists children e',
    sub_file_entries lookup_by_part_index root_entry world3
    = (children, None, e', log (walk_events 3) world3)
    /\ _directory e' = Some root_directory
    /\ length children = 3%nat
    /\ forall i p,
         nth_error [record1; record2; record3] i = Some p ->
         exists ps,
           nth_error children i = Some (new_entry ps false false)
           /\ part_index ps = Some (Z.of_nat i)
           /\ parent ps = Some image_raw.
Proof.
  exact (sub_entries_of_root lookup_by_part_index root_entry world3
           eq_refl eq_refl eq_refl eq_refl eq_refl).
Defined.

End RootEntriesWitness.

Section EntryNames.
Import tsk_partition_file_entry more_samples.

Variable BasenamePath : string -> string.

(** X11. Among the entries of the root, the entry of an unallocated record
    has the empty name and the entry of an allocated one is named by the
    base name of its '/pN' location; the name is kept on the entry, so asking
    again returns it without consulting the file system. *)
Theorem sub_entry_names (d : TSKPartitionDirectory) (w : world)
    (Hroot : is_enumerable (file_system w) (dir_path_spec d) = true)
    (Hparent : HasParent (dir_path_spec d) = true) :
  forall i p,
    nth_error (vol_parts (GetTSKVolume w)) i = Some p ->
    exists ps,
      nth_error (yielded d w) i = Some ps
      /\ fst (name BasenamePath (new_entry ps false false))
         = (if TSKVsPartIsAllocated p
            then BasenamePath
                   ("/p" ++ format_d (allocated_count
                                        (firstn (S i)
                                                (vol_parts (GetTSKVolume w)))))
            else EmptyString)
      /\ forall other_basename,
           name other_basename
                (snd (name BasenamePath (new_entry ps false false)))
           = name BasenamePath (new_entry ps false false).
Proof.
  intros i p Hi.
  destruct (HasParent_true _ Hparent) as [par Hpar].
  unfold yielded. rewrite (yielded_root d w par Hroot Hpar). cbn [fst].
  eexists. split; [apply entries_loop_nth; exact Hi|].
  unfold name, child_of, new_entry.
  cbn [_name path_spec location set_name fst snd].
  split.
  - destruct (TSKVsPartIsAllocated p); reflexivity.
  - intros other_basename. reflexivity.
Qed.

End EntryNames.

Section EntryNamesWitness.
Import tsk_partition_file_entry more_samples.

Lemma sub_entry_names_witness :
  exists ps,
    nth_error (yielded root_directory world3) 2 = Some ps
    /\ fst (name basename_stub (new_entry ps false false)) = "p2"
    /\ forall other_basename,
         name other_basename
              (snd (name basename_stub (new_entry ps false false)))
         = name basename_stub (new_entry ps false false).
Proof.
  exact (sub_entry_names basename_stub root_directory world3
           eq_refl eq_refl 2%nat record3 eq_refl).
Defined.

End EntryNamesWitness.

(** ** More on the archive file system and the VHD file object *)

Section MoreTar.
Import tarfile tar_file_system tar_samples more_samples.

Lemma held_acquire_only (par : PathSpec) (fo : handle) (h : handle) :
  held [EvOpenFileObject par (Ok fo); EvTarfileOpen fo true] h
  = if Nat.eqb h fo then 1 else 0.
Proof.
  unfold held. cbn [filter io_event_eqb_acquire io_event_eqb_close].
  destruct (Nat.eqb h fo); reflexivity.
Qed.

Lemma held_close_only (fo : handle) (h : handle) :
  held [EvClose fo] h = if Nat.eqb h fo then -1 else 0.
Proof.
  unfold held. cbn [filter io_event_eqb_acquire io_event_eqb_close].
  destruct (Nat.eqb h fo); reflexivity.
Qed.

(** What a successful [_Open] has done. *)
Lemma tar_open_success (c : collaborators) (self self1 : TARFileSystem)
    (ps : PathSpec) (tr tr1 : list io_event) :
  _Open c self ps tr = (Ok tt, self1, tr1) ->
  exists par fo t,
    parent ps = Some par
    /\ Resolver_OpenFileObject c par tr = Ok fo
    /\ tarfile_open c fo (tr ++ [EvOpenFileObject par (Ok fo)]) = Ok t
    /\ self1 = {| _file_object := Some fo; _tar_file := Some t;
                  encoding := encoding self |}
    /\ tr1 = (tr ++ [EvOpenFileObject par (Ok fo); EvTarfileOpen fo true])%list.
Proof.
  unfold _Open, HasParent.
  destruct (parent ps) as [par|]; cbn [negb]; [|discriminate].
  destruct (Resolver_OpenFileObject c par tr) as [fo|e] eqn:Hacq;
    [|discriminate].
  destruct (tarfile_open c fo (tr ++ [EvOpenFileObject par (Ok fo)]))
    as [t|e] eqn:Hdec.
  - intros H. inversion H; subst. exists par, fo, t.
    repeat split; try reflexivity; try assumption.
    rewrite <- app_assoc. reflexivity.
  - destruct (file_object_close c fo _); discriminate.
Qed.

(** X12. Opening and then closing the archive file system gives back what
    was taken: after a successful [_Open] the file system holds the very
    archive [tarfile.open] returned for the file object the resolver gave
    for the parent, and exactly one more reference to that file object, and
    to no other; a [_Close] in which neither [close()] raises empties both
    slots and leaves every file object held as often as before the
    [_Open]. *)
Theorem tar_open_close_round_trip
    (close_tar_file : TarFile -> list io_event -> option exn)
    (c : collaborators) (self self1 : TARFileSystem) (ps : PathSpec)
    (tr tr1 : list io_event)
    (Hopen : _Open c self ps tr = (Ok tt, self1, tr1))
    (Htar : forall t, close_tar_file t tr1 = None)
    (Hfile : forall h, file_object_close c h tr1 = None) :
  exists par fo t,
    parent ps = Some par
    /\ Resolver_OpenFileObject c par tr = Ok fo
    /\ tarfile_open c fo (tr ++ [EvOpenFileObject par (Ok fo)]) = Ok t
    /\ _file_object self1 = Some fo
    /\ GetTARFile self1 = Some t
    /\ held tr1 fo = held tr fo + 1
    /\ (forall h, h <> fo -> held tr1 h = held tr h)
    /\ exists tr2,
         _Close close_tar_file c self1 tr1
         = (Ok tt,
            {| _file_object := None; _tar_file := None;
               encoding := encoding self |},
            tr2)
         /\ forall h, held tr2 h = held tr h.
Proof.
  destruct (tar_open_success c self self1 ps tr tr1 Hopen)
    as (par & fo & t & Hpar & Hacq & Hdec & -> & ->).
  exists par, fo, t. cbn [_file_object GetTARFile _tar_file].
  split; [exact Hpar|]. split; [exact Hacq|]. split; [exact Hdec|].
  split; [reflexivity|]. split; [reflexivity|]. split.
  { rewrite held_app, held_acquire_only, Nat.eqb_refl. reflexivity. }
  split.
  { intros h Hh. rewrite held_app, held_acquire_only.
    apply Nat.eqb_neq in Hh. rewrite Hh. lia. }
  unfold _Close. cbn [_tar_file _file_object encoding].
  rewrite Htar, Hfile. eexists. split; [reflexivity|].
  intros h. rewrite !held_app, held_acquire_only, held_close_only.
  destruct (Nat.eqb h fo); lia.
Qed.

Lemma tar_open_close_round_trip_witness :
  exists par fo t,
    Some archive_tar = Some par
    /\ Ok 7%nat = Ok fo
    /\ Ok sample_tar = Ok t
    /\ Some 7%nat = Some fo
    /\ Some sample_tar = Some t
    /\ held [EvOpenFileObject archive_tar (Ok 7%nat); EvTarfileOpen 7%nat true]
            fo = held [] fo + 1
    /\ (forall h, h <> fo ->
        held [EvOpenFileObject archive_tar (Ok 7%nat);
              EvTarfileOpen 7%nat true] h = held [] h)
    /\ exists tr2,
         _Close tar_closes all_succeed opened_tar
                [EvOpenFileObject archive_tar (Ok 7%nat);
                 EvTarfileOpen 7%nat true]
         = (Ok tt, new_TARFileSystem "utf-8", tr2)
         /\ forall h, held tr2 h = held [] h.
Proof.
  exact (tar_open_close_round_trip tar_closes all_succeed
           (new_TARFileSystem "utf-8") opened_tar (tar_location "/")
           [] _ eq_refl (fun _ => eq_refl) (fun _ => eq_refl)).
Defined.

Lemma find_last_match {A : Type} (f : A -> bool) (x : A) (l1 : list A) :
  forall l2,
    (forall y, In y l1 -> f y = false) -> f x = true ->
    find f (l1 ++ x :: l2) = Some x.
Proof.
  induction l1 as [|y l1 IH]; intros l2 Hnone Hx.
  - cbn. rewrite Hx. reflexivity.
  - cbn. rewrite (Hnone y (or_introl eq_refl)).
    apply IH; [|exact Hx]. intros z Hz. apply Hnone. right. exact Hz.
Qed.

(** [getmember] answers with the last member of the name. *)
Lemma getmember_last (before after : TarFile) (m : TarInfo) :
  (forall x, In x after -> name x <> name m) ->
  getmember (before ++ m :: after)%list (name m) = Ok m.
Proof.
  intros Hafter. unfold getmember.
  rewrite rev_app_distr. cbn [List.rev]. rewrite <- app_assoc.
  change ([m] ++ List.rev before)%list with (m :: List.rev before).
  rewrite find_last_match; [reflexivity| |apply String.eqb_refl].
  intros y Hy. apply in_rev in Hy. apply String.eqb_neq.
  intros E. exact (Hafter y Hy (eq_sym E)).
Qed.

Lemma startswith_root (n : string) :
  startswith (LOCATION_ROOT ++ n) LOCATION_ROOT = true.
Proof. destruct n; reflexivity. Qed.

(** X13. Every member of an opened archive is found under the location made
    of the separator and its name: it exists, and the entry returned is a
    non-virtual entry carrying a member of that name, which is the last
    member of that name in archive order. *)
Theorem member_lookup
    (self : TARFileSystem) (tar_file : TarFile) (m : TarInfo) (ps : PathSpec)
    (Hopen : _tar_file self = Some tar_file)
    (Hmember : In m tar_file)
    (Hname : name m <> EmptyString)
    (Hlocation : location ps = Some (LOCATION_ROOT ++ name m)) :
  FileEntryExistsByPathSpec self ps = Ok true
  /\ (exists m',
        GetFileEntryByPathSpec self ps
        = Ok (Some {| entry_path_spec := ps; is_root := false;
                      is_virtual := false; tar_info := Some m' |})
        /\ In m' tar_file /\ name m' = name m)
  /\ forall before after,
       tar_file = (before ++ m :: after)%list ->
       (forall x, In x after -> name x <> name m) ->
       GetFileEntryByPathSpec self ps
       = Ok (Some {| entry_path_spec := ps; is_root := false;
                     is_virtual := false; tar_info := Some m |}).
Proof.
  assert (Hlen : Nat.eqb (String.length (LOCATION_ROOT ++ name m)) 1 = false).
  { destruct (name m) as [|ch rest]; [congruence | reflexivity]. }
  assert (Hget : forall m', getmember tar_file (name m) = Ok m' ->
            FileEntryExistsByPathSpec self ps = Ok true
            /\ GetFileEntryByPathSpec self ps
               = Ok (Some {| entry_path_spec := ps; is_root := false;
                             is_virtual := false; tar_info := Some m' |})).
  { intros m' Hm'.
    assert (Hx : FileEntryExistsByPathSpec self ps = Ok true).
    { unfold FileEntryExistsByPathSpec.
      rewrite Hlocation, Hlen, Hopen.
      change (drop_first (LOCATION_ROOT ++ name m)) with (name m).
      rewrite startswith_root. cbn [negb]. rewrite Hm'. reflexivity. }
    split; [exact Hx|]. unfold GetFileEntryByPathSpec.
    rewrite Hx, Hlocation, Hlen, Hopen.
    change (drop_first (LOCATION_ROOT ++ name m)) with (name m).
    rewrite Hm'. reflexivity. }
  pose proof (getmember_spec tar_file (name m)) as S.
  destruct (getmember tar_file (name m)) as [m'|e] eqn:E.
  - destruct S as [Hin Hnm]. destruct (Hget m' eq_refl) as [Hx Hg].
    split; [exact Hx|]. split; [exists m'; auto|].
    intros before after Hsplit Hafter. subst tar_file.
    rewrite (getmember_last before after m Hafter) in E.
    inversion E; subst m'. exact Hg.
  - destruct S as [_ Hnone]. exfalso. exact (Hnone m Hmember eq_refl).
Qed.

Lemma member_lookup_witness :
  GetFileEntryByPathSpec twice_a (tar_location "/a")
  = Ok (Some {| entry_path_spec := tar_location "/a"; is_root := false;
                is_virtual := false; tar_info := Some second_a |}).
Proof.
  assert (Hname : name second_a <> EmptyString) by discriminate.
  exact (proj2 (proj2 (member_lookup twice_a [first_a; second_a] second_a
                         (tar_location "/a") eq_refl
                         (or_intror (or_introl eq_refl)) Hname eq_refl))
           [first_a] [] eq_refl (fun x (H : In x []) => match H with end)).
Defined.



(** X15. [VhdiFile._OpenFileObject] keeps the reference it acquires whatever
    the decoder does: once the resolver has returned the parent's file
    object, that object is held once more after the call and no other is
    touched, both when [open_file_object] returns (the result wraps that
    file object) and when it raises (the error leaves, and nothing closes the
    parent). *)
Theorem vhdi_open_holds_parent
    (c : collaborators) (ps par : PathSpec) (tr : list io_event) (fo : handle)
    (Hpar : parent ps = Some par)
    (Hacquired : Resolver_OpenFileObject c par tr = Ok fo) :
  let call := vhdi_file_io._OpenFileObject c ps tr in
  held (snd call) fo = held tr fo + 1
  /\ (forall h, h <> fo -> held (snd call) h = held tr h)
  /\ filter (io_event_eqb_close fo) (snd call)
     = filter (io_event_eqb_close fo) tr
  /\ fst call
     = match pyvhdi_open_file_object c fo
               (tr ++ [EvOpenFileObject par (Ok fo)]) with
       | Some e => Raise e
       | None => Ok {| vhdi_file_io.vhdi_file_object := fo |}
       end.
Proof.
  intros call. subst call.
  unfold vhdi_file_io._OpenFileObject, HasParent.
  rewrite Hpar. cbn [negb]. rewrite Hacquired.
  assert (Hheld : forall used h,
    held ((tr ++ [EvOpenFileObject par (Ok fo)])
            ++ [EvVhdiOpenFileObject fo used]) h
    = held tr h + if Nat.eqb h fo then 1 else 0).
  { intros used h. rewrite <- app_assoc, held_app. f_equal.
    unfold held. simpl. destruct (Nat.eqb h fo); reflexivity. }
  assert (Hclose : forall used,
    filter (io_event_eqb_close fo)
           ((tr ++ [EvOpenFileObject par (Ok fo)])
              ++ [EvVhdiOpenFileObject fo used])
    = filter (io_event_eqb_close fo) tr).
  { intros used. rewrite !filter_app. simpl. rewrite !app_nil_r.
    reflexivity. }
  destruct (pyvhdi_open_file_object c fo
              (tr ++ [EvOpenFileObject par (Ok fo)])) as [e|];
    cbn [fst snd]; rewrite Hclose;
    (split; [rewrite Hheld, Nat.eqb_refl; reflexivity|]);
    (split; [intros h Hh; rewrite Hheld;
             apply Nat.eqb_neq in Hh; rewrite Hh; lia|]);
    split; reflexivity.
Qed.

Lemma vhdi_open_holds_parent_witness :
  held (snd (vhdi_file_io._OpenFileObject failing_decoder
               (tar_location "/") [])) 7%nat = 1
  /\ fst (vhdi_file_io._OpenFileObject failing_decoder (tar_location "/") [])
     = Raise IOError.
Proof.
  pose proof (vhdi_open_holds_parent failing_decoder (tar_location "/")
                archive_tar [] 7%nat eq_refl eq_refl) as H.
  cbv zeta in H. destruct H as (Hheld & _ & _ & Hresult).
  split; [exact Hheld | exact Hresult].
Defined.

End MoreTar.

(** ** Where the code departs from the specification *)

Section Defects.
Import tarfile tar_file_system tar_samples more_samples.

(** C3. The VHD file object does not release the parent on failure: with a
    parent that opens as file object 7 and a decoder that raises, the error
    leaves [VhdiFile._OpenFileObject] after the resolver call and the failed
    decoder call and nothing else, so file object 7 is still held and no
    [close()] was called on it; [TARFileSystem._Open] on the same
    collaborators closes it. *)
Theorem vhdi_open_failure_leaks_parent :
  vhdi_file_io._OpenFileObject failing_decoder vhdi_over_image []
  = (Raise IOError,
     [EvOpenFileObject image_vhd (Ok 7%nat); EvVhdiOpenFileObject 7%nat false])
  /\ held (snd (vhdi_file_io._OpenFileObject failing_decoder
                  vhdi_over_image [])) 7%nat = 1
  /\ filter (io_event_eqb_close 7%nat)
            (snd (vhdi_file_io._OpenFileObject failing_decoder
                    vhdi_over_image [])) = []
  /\ snd (_Open failing_decoder (new_TARFileSystem "utf-8")
                (tar_location "/") [])
     = [EvOpenFileObject archive_tar (Ok 7%nat); EvTarfileOpen 7%nat false;
        EvClose 7%nat].
Proof.
  split; [reflexivity|]. split; [reflexivity|]. split; reflexivity.
Qed.

(** C6. A location that is in the archive neither as a member nor as a
    directory of one is reported as existing: with members 'dir',
    'dir/file.txt' and 'notes/readme', no member is named 'di' and none lies
    below 'di/', yet [FileEntryExistsByPathSpec] answers [True] for '/di'
    and [GetFileEntryByPathSpec] returns a virtual entry, because the test
    for a virtual directory compares raw prefixes of the names. *)
Theorem partial_name_reported_existing :
  (forall m, In m sample_tar -> name m <> "di")
  /\ (forall m, In m sample_tar -> startswith (name m) "di/" = false)
  /\ FileEntryExistsByPathSpec opened_tar (tar_location "/di") = Ok true
  /\ GetFileEntryByPathSpec opened_tar (tar_location "/di")
     = Ok (Some {| entry_path_spec := tar_location "/di"; is_root := false;
                   is_virtual := true; tar_info := None |}).
Proof.
  split.
  { intros m [<-|[<-|[<-|[]]]]; discriminate. }
  split.
  { intros m [<-|[<-|[<-|[]]]]; reflexivity. }
  split; reflexivity.
Qed.

End Defects.
